(** * Gluten-development analysis: the numeric pipeline of
      [gluten_analysis_app.py] and [gluten_analysis_simple.py]

    The two scripts load a g-force recording into a pandas DataFrame and
    run [analyze_gluten_development] on it; the presentation code then
    derives a few categorical findings from the returned dictionary.

    Numbers.  The scripts compute in binary64.  Here a float is an exact
    real number, or one of the three IEEE specials the scripts can meet
    (plus and minus infinity, NaN); rounding error and signed zeros are not
    modelled.  A recording holds finite readings only.

    Library calls ([pandas], [scipy.signal], [numpy]) are modelled after
    the algorithms of those libraries, under the names the scripts use. *)

From Stdlib Require Import Reals Lra Lia List ZArith Bool Arith Zfloor.
From Stdlib Require Import R_sqrt Sorted Permutation.
Import ListNotations.

Open Scope R_scope.

(** ** Python: exceptions and results *)

Module Py.

Inductive exn : Type :=
| IndexError
| ValueError
| OverflowError
| ZeroDivisionError.

Inductive result (A : Type) : Type :=
| Ok (a : A)
| Raise (e : exn).

Arguments Ok {A} a.
Arguments Raise {A} e.

Definition bind {A B : Type} (m : result A) (k : A -> result B) : result B :=
  match m with
  | Ok a => k a
  | Raise e => Raise e
  end.

Definition fails {A : Type} (m : result A) : Prop :=
  exists e, m = Raise e.

End Py.

Import Py.

Notation "x <- m ;; k" := (bind m (fun x => k))
  (at level 61, m at next level, right associativity).
Notation "' pat <- m ;; k" := (bind m (fun x => match x with pat => k end))
  (at level 61, pat pattern, m at next level, right associativity).

(** ** Floats *)

Definition Rltb (a b : R) : bool := if Rlt_dec a b then true else false.
Definition Rleb (a b : R) : bool := if Rle_dec a b then true else false.
Definition Reqb (a b : R) : bool := if Req_dec_T a b then true else false.

Inductive float : Type :=
| Fin (r : R)
| PInf
| NInf
| NaN.

Definition isnan (x : float) : bool :=
  match x with NaN => true | _ => false end.

Definition fopp (x : float) : float :=
  match x with
  | Fin r => Fin (- r)
  | PInf => NInf
  | NInf => PInf
  | NaN => NaN
  end.

(** The infinity carrying the sign of [r], NaN for zero. *)
Definition signed_inf (r : R) : float :=
  if Rltb 0 r then PInf else if Rltb r 0 then NInf else NaN.

Definition fadd (x y : float) : float :=
  match x, y with
  | NaN, _ | _, NaN => NaN
  | Fin a, Fin b => Fin (a + b)
  | PInf, NInf | NInf, PInf => NaN
  | PInf, _ | _, PInf => PInf
  | NInf, _ | _, NInf => NInf
  end.

Definition fsub (x y : float) : float := fadd x (fopp y).

Definition fmul (x y : float) : float :=
  match x, y with
  | NaN, _ | _, NaN => NaN
  | Fin a, Fin b => Fin (a * b)
  | Fin a, PInf | PInf, Fin a => signed_inf a
  | Fin a, NInf | NInf, Fin a => signed_inf (- a)
  | PInf, PInf | NInf, NInf => PInf
  | PInf, NInf | NInf, PInf => NaN
  end.

(** numpy scalar division: dividing by zero does not raise, it yields an
    infinity (NaN for 0/0) and a warning. *)
Definition fdiv (x y : float) : float :=
  match x, y with
  | NaN, _ | _, NaN => NaN
  | Fin a, Fin b => if Reqb b 0 then signed_inf a else Fin (a / b)
  | Fin _, _ => Fin 0
  | PInf, Fin b => if Rltb b 0 then NInf else PInf
  | NInf, Fin b => if Rltb b 0 then PInf else NInf
  | _, _ => NaN
  end.

(** Comparisons; every comparison with NaN is false. *)
Definition fltb (x y : float) : bool :=
  match x, y with
  | NaN, _ | _, NaN => false
  | Fin a, Fin b => Rltb a b
  | _, NInf | PInf, _ => false
  | NInf, _ | _, PInf => true
  end.

Definition fleb (x y : float) : bool :=
  match x, y with
  | NaN, _ | _, NaN => false
  | Fin a, Fin b => Rleb a b
  | NInf, _ | _, PInf => true
  | _, NInf | PInf, _ => false
  end.

Definition fgtb (x y : float) : bool := fltb y x.

(** [int(x)]: truncation toward zero; infinities and NaN raise. *)
Definition trunc (r : R) : Z := if Rleb 0 r then Zfloor r else Zceil r.

Definition py_int (x : float) : result Z :=
  match x with
  | Fin r => Ok (trunc r)
  | PInf | NInf => Raise OverflowError
  | NaN => Raise ValueError
  end.

(** ** The recording *)

Record Sample : Type := mkSample {
  time : R;
  gFx : R;
  gFy : R;
  gFz : R;
  gFTotal : R
}.

Definition DataFrame : Type := list Sample.

(** [df['col']] *)
Definition column (f : Sample -> R) (df : DataFrame) : list R := map f df.

(** A recording from (time, magnitude) pairs, axes at rest. *)
Definition recording (l : list (R * R)) : DataFrame :=
  map (fun p => mkSample (fst p) 0 0 0 (snd p)) l.

(** ** pandas.Series *)

Module Series.

(** [s.iloc[i]] for a non-negative position. *)
Definition iloc (s : list R) (i : nat) : result R :=
  match nth_error s i with
  | Some v => Ok v
  | None => Raise IndexError
  end.

Definition sum (s : list R) : R := fold_right Rplus 0 s.

(** [s.max()]; NaN on an empty series. *)
Definition max (s : list R) : float :=
  match s with
  | [] => NaN
  | v :: rest => Fin (fold_left Rmax rest v)
  end.

Definition mean_of (s : list R) : R := sum s / INR (length s).

(** [s.mean()]; NaN on an empty series. *)
Definition mean (s : list R) : float :=
  match s with
  | [] => NaN
  | _ => Fin (mean_of s)
  end.

(** Sum of squared deviations from the mean. *)
Definition ssqdm (s : list R) : R :=
  sum (map (fun v => (v - mean_of s) * (v - mean_of s)) s).

(** Variance with [ddof] delta degrees of freedom. *)
Definition var_of (ddof : nat) (s : list R) : R :=
  ssqdm s / INR (length s - ddof).

(** [s.std()]: pandas' default is [ddof=1]; NaN unless there are more
    observations than [ddof]. *)
Definition std (s : list R) : float :=
  if (1 <? length s)%nat then Fin (sqrt (var_of 1 s)) else NaN.

(** *** [s.rolling(window=w, center=True).std()] *)

Definition clip (z : Z) (n : nat) : nat :=
  Z.to_nat (Z.min (Z.max z 0) (Z.of_nat n)).

(** [x[start:stop]] *)
Definition slice (x : list R) (start stop : nat) : list R :=
  firstn (stop - start) (skipn start x).

(** The fixed-window indexer: the window labelled [i] is
    [end - window, end) with [end = i + 1 + offset], both bounds clipped
    to the series; centring sets [offset = (window - 1) // 2]. *)
Definition window_bounds (n : nat) (window : Z) (i : nat) : nat * nat :=
  let offset := ((window - 1) / 2)%Z in
  let stop := (Z.of_nat i + 1 + offset)%Z in
  (clip (stop - window) n, clip stop n).

(** One window: the result is missing unless the window holds at least
    [min_periods = window] observations, and more than [ddof = 1]. *)
Definition window_std (window : Z) (w : list R) : float :=
  if (window <=? Z.of_nat (length w))%Z && (1 <? length w)%nat
  then Fin (sqrt (var_of 1 w))
  else NaN.

Definition rolling_std (x : list R) (window : Z) : result (list float) :=
  if (window <? 0)%Z then Raise ValueError
  else Ok (map (fun i =>
                  let '(start, stop) := window_bounds (length x) window i in
                  window_std window (slice x start stop))
               (seq 0 (length x))).

(** *** [s.quantile(q)], linear interpolation, missing values skipped *)

Definition dropna (s : list float) : list float :=
  filter (fun v => negb (isnan v)) s.

Fixpoint insert (v : float) (l : list float) : list float :=
  match l with
  | [] => [v]
  | h :: t => if fleb v h then v :: l else h :: insert v t
  end.

Definition sort (l : list float) : list float :=
  fold_right insert [] l.

Definition quantile (s : list float) (q : R) : float :=
  match sort (dropna s) with
  | [] => NaN
  | (v0 :: _) as vs =>
      let virtual := q * INR (length vs - 1) in
      let previous := Z.to_nat (Zfloor virtual) in
      let next := Nat.min (S previous) (length vs - 1) in
      let gamma := virtual - INR previous in
      let lo := nth previous vs v0 in
      let hi := nth next vs v0 in
      fadd lo (fmul (fsub hi lo) (Fin gamma))
  end.

(** [s > t] element-wise against a scalar, then [.sum()] and [.any()]. *)
Definition gt (s : list float) (t : float) : list bool :=
  map (fun v => fgtb v t) s.

Definition count_true (m : list bool) : nat :=
  length (filter (fun b => b) m).

Definition any (m : list bool) : bool := existsb (fun b => b) m.

End Series.

(** ** scipy.signal.find_peaks *)

Module Signal.

Definition at_ (x : list R) (i : nat) : R := nth i x 0.

(** Inner loop of [_local_maxima_1d]:
    [while i_ahead < i_max and x[i_ahead] == x[i]: i_ahead += 1] *)
Fixpoint look_ahead (fuel : nat) (x : list R) (i i_ahead i_max : nat) : nat :=
  match fuel with
  | O => i_ahead
  | S fuel' =>
      if (i_ahead <? i_max)%nat && Reqb (at_ x i_ahead) (at_ x i)
      then look_ahead fuel' x i (S i_ahead) i_max
      else i_ahead
  end.

(** [(left_edge + right_edge) // 2] *)
Definition midpoint (left_edge right_edge : nat) : nat :=
  ((left_edge + right_edge) / 2)%nat.

(** Outer loop of [_local_maxima_1d], collecting the midpoints:
    a rising edge at [i] followed by a run of equal samples and then a
    falling edge is a maximum, reported at the middle of the run. *)
Fixpoint local_maxima_loop (fuel : nat) (x : list R) (i i_max : nat)
  : list nat :=
  match fuel with
  | O => []
  | S fuel' =>
      if (i <? i_max)%nat then
        if Rltb (at_ x (i - 1)) (at_ x i) then
          let i_ahead := look_ahead (i_max - i) x i (S i) i_max in
          if Rltb (at_ x i_ahead) (at_ x i) then
            midpoint i (i_ahead - 1)
              :: local_maxima_loop fuel' x (S i_ahead) i_max
          else local_maxima_loop fuel' x (S i) i_max
        else local_maxima_loop fuel' x (S i) i_max
      else []
  end.

(** The first and the last sample are never visited: [i] starts at 1 and
    stops before [i_max = len(x) - 1]. *)
Definition local_maxima_1d (x : list R) : list nat :=
  local_maxima_loop (length x) x 1 (length x - 1).

(** [find_peaks(x, height=h)]: [height] is the minimal required height,
    a maximum is kept when [h <= x[peak]]. *)
Definition find_peaks (x : list R) (height : float) : list nat :=
  filter (fun p => fleb height (Fin (at_ x p))) (local_maxima_1d x).

End Signal.

(** ** numpy *)

Module Np.

(** [np.argmax]: the first maximum; a NaN counts as the maximum and
    stops the scan. *)
Fixpoint argmax_loop (mp : float) (best i : nat) (l : list float) : nat :=
  match l with
  | [] => best
  | v :: rest =>
      if negb (fleb v mp) then
        if isnan v then i else argmax_loop v i (S i) rest
      else argmax_loop mp best (S i) rest
  end.

Definition argmax (l : list float) : result nat :=
  match l with
  | [] => Raise ValueError
  | v :: rest => Ok (if isnan v then O else argmax_loop v O 1%nat rest)
  end.

(** [a[i]] for a non-negative index. *)
Definition getitem (a : list float) (i : nat) : result float :=
  match nth_error a i with
  | Some v => Ok v
  | None => Raise IndexError
  end.

End Np.

(** ** The analysis dictionary *)

Record Analysis : Type := mkAnalysis {
  total_time : float;
  mean_gforce : float;
  std_gforce : float;
  num_peaks : nat;
  sampling_rate : float;
  dominant_freq : float;
  rolling_std : list float
}.

(** The script for the console also stores the spectrum. *)
Record AnalysisSimple : Type := mkAnalysisSimple {
  summary : Analysis;
  freqs : list float;
  psd : list float
}.

(** The three assessments of the variation coefficient. *)
Inductive variation : Type :=
| HighVariation
| ModerateVariation
| LowVariation.

(** The three recommendations on the mixing time. *)
Inductive duration : Type :=
| TooShort
| OptimalTime
| TooLong.

(** [signal.welch(x, fs=..., nperseg=...)] returns the frequency bins and
    the averaged periodogram, or raises. *)
Definition welch_t : Type :=
  list R -> float -> nat -> result (list float * list float).

(** ** gluten_analysis_app.py *)

Module App.

Section Pipeline.

Variable welch : welch_t.

(** line 40: the height passed to [find_peaks] *)
Definition height (df : DataFrame) : float :=
  fadd (Series.mean (column gFTotal df))
       (fmul (Fin 0.5) (Series.std (column gFTotal df))).

Definition peaks (df : DataFrame) : list nat :=
  Signal.find_peaks (column gFTotal df) (height df).

(** line 43 *)
Definition infer_rate (df : DataFrame) : result float :=
  t1 <- Series.iloc (column time df) 1 ;;
  t0 <- Series.iloc (column time df) 0 ;;
  Ok (fdiv (Fin 1) (Fin (t1 - t0))).

(** line 49 *)
Definition window_size (rate : float) : result Z :=
  py_int (fmul rate (Fin 10)).

Definition analyze_gluten_development (df : DataFrame) : result Analysis :=
  let total_time := Series.max (column time df) in
  let mean_gforce := Series.mean (column gFTotal df) in
  let std_gforce := Series.std (column gFTotal df) in
  let peaks := peaks df in
  sampling_rate <- infer_rate df ;;
  '(freqs, psd) <- welch (column gFTotal df) sampling_rate 1024%nat ;;
  window_size <- window_size sampling_rate ;;
  rolling_std <- Series.rolling_std (column gFTotal df) window_size ;;
  k <- Np.argmax psd ;;
  dominant_freq <- Np.getitem freqs k ;;
  Ok {| total_time := total_time;
        mean_gforce := mean_gforce;
        std_gforce := std_gforce;
        num_peaks := length peaks;
        sampling_rate := sampling_rate;
        dominant_freq := dominant_freq;
        rolling_std := rolling_std |}.

End Pipeline.

(** [main], line 140 *)
Definition high_activity_periods (analysis : Analysis) : result (list bool) :=
  Ok (Series.gt (rolling_std analysis)
                (Series.quantile (rolling_std analysis) 0.75)).

(** [main], line 157 *)
Definition std_coefficient (analysis : Analysis) : float :=
  fdiv (std_gforce analysis) (mean_gforce analysis).

(** [main], lines 159-164 *)
Definition assessment (std_coefficient : float) : variation :=
  if fgtb std_coefficient (Fin 0.1) then HighVariation
  else if fgtb std_coefficient (Fin 0.05) then ModerateVariation
  else LowVariation.

(** [main], lines 142-146: the dashboard reports the number of
    high-activity samples when the mask has a true entry, and a warning
    otherwise. *)
Definition activity_report (analysis : Analysis) : result (option nat) :=
  mask <- high_activity_periods analysis ;;
  Ok (if Series.any mask then Some (Series.count_true mask) else None).

(** [main], line 177 *)
Definition total_minutes (analysis : Analysis) : float :=
  fdiv (total_time analysis) (Fin 60).

(** [main], lines 179-184 *)
Definition recommendation (total_minutes : float) : duration :=
  if fltb total_minutes (Fin 8) then TooShort
  else if fgtb total_minutes (Fin 15) then TooLong
  else OptimalTime.

End App.

(** ** gluten_analysis_simple.py *)

Module Simple.

Section Pipeline.

Variable welch : welch_t.

(** line 37 *)
Definition height (df : DataFrame) : float :=
  fadd (Series.mean (column gFTotal df))
       (fmul (Fin 0.5) (Series.std (column gFTotal df))).

Definition peaks (df : DataFrame) : list nat :=
  Signal.find_peaks (column gFTotal df) (height df).

(** line 40 *)
Definition infer_rate (df : DataFrame) : result float :=
  t1 <- Series.iloc (column time df) 1 ;;
  t0 <- Series.iloc (column time df) 0 ;;
  Ok (fdiv (Fin 1) (Fin (t1 - t0))).

(** line 46 *)
Definition window_size (rate : float) : result Z :=
  py_int (fmul rate (Fin 10)).

Definition analyze_gluten_development (df : DataFrame)
  : result AnalysisSimple :=
  let total_time := Series.max (column time df) in
  let mean_gforce := Series.mean (column gFTotal df) in
  let std_gforce := Series.std (column gFTotal df) in
  let peaks := peaks df in
  sampling_rate <- infer_rate df ;;
  '(freqs, psd) <- welch (column gFTotal df) sampling_rate 1024%nat ;;
  window_size <- window_size sampling_rate ;;
  rolling_std <- Series.rolling_std (column gFTotal df) window_size ;;
  k <- Np.argmax psd ;;
  dominant_freq <- Np.getitem freqs k ;;
  Ok {| summary := {| total_time := total_time;
                      mean_gforce := mean_gforce;
                      std_gforce := std_gforce;
                      num_peaks := length peaks;
                      sampling_rate := sampling_rate;
                      dominant_freq := dominant_freq;
                      rolling_std := rolling_std |};
        freqs := freqs;
        psd := psd |}.

End Pipeline.

(** [create_analysis_plots], line 122 *)
Definition high_activity_periods (analysis : Analysis) : result nat :=
  Ok (Series.count_true
        (Series.gt (rolling_std analysis)
                   (Series.quantile (rolling_std analysis) 0.75))).

(** [create_analysis_plots], line 121 *)
Definition std_coefficient (analysis : Analysis) : float :=
  fdiv (std_gforce analysis) (mean_gforce analysis).

(** [create_analysis_plots], lines 141-146, and [main], lines 194-199 *)
Definition assessment (std_coefficient : float) : variation :=
  if fgtb std_coefficient (Fin 0.1) then HighVariation
  else if fgtb std_coefficient (Fin 0.05) then ModerateVariation
  else LowVariation.

(** [create_analysis_plots], line 120, and [main], line 202 *)
Definition total_minutes (analysis : Analysis) : float :=
  fdiv (total_time analysis) (Fin 60).

(** [create_analysis_plots], lines 148-153, and [main], lines 203-208:
    [8 <= total_minutes <= 15] is tested first. *)
Definition recommendation (total_minutes : float) : duration :=
  if fleb (Fin 8) total_minutes && fleb total_minutes (Fin 15) then OptimalTime
  else if fltb total_minutes (Fin 8) then TooShort
  else TooLong.

End Simple.

(** * Vocabulary of the properties, and recordings to run on *)

Notation "x .[ i ]" := (Signal.at_ x i) (at level 1, format "x .[ i ]").

(** A clock that did not advance between the first two samples. *)
Definition stalled_clock : DataFrame := recording [(1, 1); (1, 1.2)].

(** [z] is an integer nearest to [r]. *)
Definition nearest (r : R) (z : Z) : Prop := Rabs (r - IZR z) <= 1 / 2.

(** Samples 60 ms apart: 16.67 samples a second. *)
Definition slow_logger : DataFrame := recording [(0, 1); (0.06, 1.1); (0.12, 1)].

(** A four-sample recording at 10 Hz and a three-bin spectrum, to run the
    pipeline on. *)
Definition bench : DataFrame :=
  recording [(0, 1); (0.1, 1.2); (0.2, 1); (0.3, 1.2)].

(** A spectrum estimate that returns the same three bins whatever the
    signal; the two upper bins tie. *)
Definition bench_welch : welch_t :=
  fun _ _ _ => Ok ([Fin 0; Fin 0.5; Fin 1], [Fin 1; Fin 3; Fin 3]).

(** The population standard deviation, divisor [n]. *)
Definition population_std (s : list R) : R :=
  sqrt (Series.ssqdm s / INR (length s)).

(** The entry of the rolling series at label [i]. *)
Definition rolling_entry (x : list R) (window : Z) (i : nat) : float :=
  let '(start, stop) := Series.window_bounds (length x) window i in
  Series.window_std window (Series.slice x start stop).

(** Every sample equals [c]. *)
Definition constant (c : R) (l : list R) : Prop := forall v, In v l -> v = c.

(** The reading of the margins in the specification: every position
    nearer than [w / 2] to the first or to the last sample is missing. *)
Definition edges_missing (x : list R) (window : Z) (r : list float) : Prop :=
  forall i : nat, (i < length x)%nat ->
    (Z.of_nat i < window / 2
     \/ Z.of_nat (length x) - 1 - Z.of_nat i < window / 2)%Z ->
    nth i r NaN = NaN.

(** No entry of the series has a value. *)
Definition all_missing (s : list float) : Prop := forall v, In v s -> v = NaN.

(** What the pipeline returns on [bench]: ten seconds are 100 samples,
    more than the recording holds. *)
Definition bench_result : Analysis :=
  {| total_time := Series.max (column time bench);
     mean_gforce := Series.mean (column gFTotal bench);
     std_gforce := Series.std (column gFTotal bench);
     num_peaks := length (App.peaks bench);
     sampling_rate := Fin (1 / (0.1 - 0));
     dominant_freq := Fin 0.5;
     rolling_std := [NaN; NaN; NaN; NaN] |}.

(** [k] is the first position at which [ps] attains its maximum. *)
Definition first_max (ps : list R) (k : nat) : Prop :=
  (k < length ps)%nat
  /\ (forall j, (j < length ps)%nat -> nth j ps 0 <= nth k ps 0)
  /\ (forall j, (j < k)%nat -> nth j ps 0 < nth k ps 0).

(** The bins are in strictly ascending order. *)
Definition ascending (fs : list R) : Prop :=
  forall i j, (i < j)%nat -> (j < length fs)%nat -> nth i fs 0 < nth j fs 0.

(** A maximum of [x]: a run [l..r] of equal samples, entered by a rise
    and left by a fall. *)
Definition plateau (x : list R) (l r : nat) : Prop :=
  (1 <= l <= r)%nat
  /\ (r + 1 < length x)%nat
  /\ x.[l - 1] < x.[l]
  /\ (forall j, (l <= j <= r)%nat -> x.[j] = x.[l])
  /\ x.[r + 1] < x.[l].

(** [height <= v], as [find_peaks] tests it. *)
Definition reaches (height : float) (v : R) : Prop := fleb height (Fin v) = true.




Definition grazing : DataFrame :=
  recording [(0, 0); (0.1, 2); (0.2, 0); (0.3, 3)].

(** One pulse: 0, 4, 0. *)
Definition pulse : DataFrame := recording [(0, 0); (0.1, 4); (0.2, 0)].

(** A recording whose magnitude never changes. *)
Definition steady : DataFrame := recording [(0, 1); (0.1, 1); (0.2, 1)].

(** The value is a real number: not missing, not infinite. *)
Definition is_fin (e : float) : Prop :=
  match e with Fin _ => True | _ => False end.

(** [a <= b] on floats, as the sort compares them. *)
Definition fle (a b : float) : Prop := fleb a b = true.

(** How many entries of [l] are greater than [t]. *)
Definition above (t : float) (l : list float) : nat :=
  Series.count_true (Series.gt l t).

(** The recording with every magnitude [g] replaced by [k * g + c]. *)
Definition rescale (k c : R) (df : DataFrame) : DataFrame :=
  map (fun s => mkSample (time s) (gFx s) (gFy s) (gFz s) (k * gFTotal s + c))
      df.

(** The window size of lines 43 and 49 of the app (40 and 46 of the
    simple script) when the subtraction, the division and the product
    each round their exact result with [rnd]; the conversion [int()] is
    exact.  With [rnd] the identity this is the exact arithmetic of
    [infer_rate] and [window_size]. *)
Definition rounded_window_size (rnd : R -> R) (t0 t1 : R) : Z :=
  trunc (rnd (rnd (1 / rnd (t1 - t0)) * 10)).

(** [rnd] returns [x] with a relative error of at most [u]: for binary64
    and a result in the normal range, [u] is [2^-53]. *)
Definition rounds_at (u : R) (rnd : R -> R) (x : R) : Prop :=
  Rabs (rnd x - x) <= u * Rabs x.

(** Rounding to two decimals, a coarse arithmetic to run the bounds on. *)
Definition round2 (x : R) : R := IZR (Zfloor (x * 100 + / 2)) / 100.

(** Six samples, 2.2 s apart, whose magnitude picks up at the end: ten
    seconds are four samples, so three rolling values are defined. *)
Definition active : DataFrame :=
  recording [(0, 1); (2.2, 2); (4.4, 2); (6.6, 2); (8.8, 4); (11, 5)].

(** What the pipeline returns on [active]. *)
Definition active_result : Analysis :=
  {| total_time := Series.max (column time active);
     mean_gforce := Series.mean (column gFTotal active);
     std_gforce := Series.std (column gFTotal active);
     num_peaks := length (App.peaks active);
     sampling_rate := Fin (1 / (2.2 - 0));
     dominant_freq := Fin 0.5;
     rolling_std := [NaN; NaN; Fin 0.5; Fin 1; Fin 1.5; NaN] |}.

(** * Properties *)

Lemma Rltb_true (a b : R) : a < b -> Rltb a b = true.
Proof. intros H. unfold Rltb. destruct (Rlt_dec a b); [reflexivity | contradiction]. Qed.

Lemma Rltb_false (a b : R) : ~ a < b -> Rltb a b = false.
Proof. intros H. unfold Rltb. destruct (Rlt_dec a b); [contradiction | reflexivity]. Qed.

Lemma Rleb_true (a b : R) : a <= b -> Rleb a b = true.
Proof. intros H. unfold Rleb. destruct (Rle_dec a b); [reflexivity | contradiction]. Qed.

Lemma Rleb_false (a b : R) : ~ a <= b -> Rleb a b = false.
Proof. intros H. unfold Rleb. destruct (Rle_dec a b); [contradiction | reflexivity]. Qed.

Lemma Reqb_true (a b : R) : a = b -> Reqb a b = true.
Proof. intros H. unfold Reqb. destruct (Req_dec_T a b); [reflexivity | contradiction]. Qed.

Lemma Reqb_false (a b : R) : a <> b -> Reqb a b = false.
Proof. intros H. unfold Reqb. destruct (Req_dec_T a b); [contradiction | reflexivity]. Qed.


Lemma Rleb_spec (a b : R) : Rleb a b = true <-> a <= b.
Proof. unfold Rleb. destruct (Rle_dec a b); split; intros; try easy. Qed.

Lemma Reqb_spec (a b : R) : Reqb a b = true <-> a = b.
Proof. unfold Reqb. destruct (Req_dec_T a b); split; intros; try easy. Qed.

(** Evaluation of the comparisons once the order of the operands is known. *)
Ltac rcompare :=
  repeat first
    [ rewrite Rltb_true by lra | rewrite Rltb_false by lra
    | rewrite Rleb_true by lra | rewrite Rleb_false by lra
    | rewrite Reqb_true by lra | rewrite Reqb_false by lra ].

(** ** Both scripts run the same pipeline *)

Lemma simple_infer_rate df : Simple.infer_rate df = App.infer_rate df.
Proof. reflexivity. Qed.

Lemma simple_window_size r : Simple.window_size r = App.window_size r.
Proof. reflexivity. Qed.

Lemma simple_peaks df : Simple.peaks df = App.peaks df.
Proof. reflexivity. Qed.

Example max_example : Series.max [1; 3; 2] = Fin 3.
Proof.
  unfold Series.max. simpl. f_equal.
  rewrite (Rmax_right 1 3) by lra. rewrite (Rmax_left 3 2) by lra. reflexivity.
Qed.

(** ** Sampling rate *)

Lemma infer_rate_two (df : DataFrame) (t0 t1 : R) (rest : list R) :
  column time df = t0 :: t1 :: rest ->
  App.infer_rate df = Ok (fdiv (Fin 1) (Fin (t1 - t0))).
Proof. intros H. unfold App.infer_rate. rewrite H. reflexivity. Qed.

Lemma infer_rate_short (df : DataFrame) :
  (length df < 2)%nat -> App.infer_rate df = Raise IndexError.
Proof.
  intros H. unfold App.infer_rate, column.
  destruct df as [|s0 [|s1 rest]]; simpl in *; try reflexivity; lia.
Qed.

(** C1, as stated, fails: with equal first timestamps the division is
    carried out and its result, plus infinity, is returned; nothing is
    raised. *)
Lemma C1_equal_timestamps_divide :
  App.infer_rate stalled_clock = Ok PInf /\ ~ fails (App.infer_rate stalled_clock).
Proof.
  assert (E : App.infer_rate stalled_clock = Ok PInf).
  { unfold App.infer_rate, stalled_clock. simpl. unfold signed_inf. rcompare.
    reflexivity. }
  split; [exact E|]. rewrite E. intros [e He]. discriminate He.
Qed.

(** C1 (amended): when the first two timestamps increase, the rate is the
    positive finite value [1/(t1 - t0)]; a recording of fewer than two
    samples fails, with the index error of the positional access; with
    equal first timestamps nothing fails and the rate is plus infinity.
    Both scripts compute the rate alike. *)
Theorem C1_infer_rate (df : DataFrame) :
  (forall t0 t1 rest, column time df = t0 :: t1 :: rest ->
     (t0 < t1 ->
      App.infer_rate df = Ok (Fin (1 / (t1 - t0))) /\ 0 < 1 / (t1 - t0))
     /\ (t1 = t0 -> App.infer_rate df = Ok PInf))
  /\ ((length df < 2)%nat -> App.infer_rate df = Raise IndexError)
  /\ Simple.infer_rate df = App.infer_rate df.
Proof.
  split; [|split; [apply infer_rate_short | reflexivity]].
  intros t0 t1 rest H. rewrite (infer_rate_two df t0 t1 rest H). split.
  - intros Hlt. simpl. rcompare. split; [reflexivity|].
    apply Rdiv_lt_0_compat; lra.
  - intros ->. simpl. unfold signed_inf. rcompare. reflexivity.
Qed.

Lemma C1_infer_rate_witness :
  App.infer_rate (recording [(0, 1); (0.1, 1.5)]) = Ok (Fin (1 / (0.1 - 0)))
  /\ App.infer_rate stalled_clock = Ok PInf
  /\ App.infer_rate (recording [(0, 1)]) = Raise IndexError.
Proof.
  split; [|split].
  - apply (proj1 (C1_infer_rate (recording [(0, 1); (0.1, 1.5)]))
             0 0.1 [] eq_refl).
    lra.
  - apply (proj1 (C1_infer_rate stalled_clock) 1 1 [] eq_refl). reflexivity.
  - apply (proj1 (proj2 (C1_infer_rate (recording [(0, 1)])))). simpl. lia.
Defined.

(** ** Window size *)

Lemma trunc_nonneg (r : R) : 0 <= r -> IZR (trunc r) <= r < IZR (trunc r) + 1.
Proof.
  intros H. unfold trunc. rewrite Rleb_true by assumption. apply Zfloor_bound.
Qed.

Lemma trunc_neg (r : R) : r < 0 -> IZR (trunc r) - 1 < r <= IZR (trunc r).
Proof.
  intros H. unfold trunc. rewrite Rleb_false by lra. apply Zceil_bound.
Qed.

Lemma trunc_eq_floor (r : R) (z : Z) :
  0 <= r -> IZR z <= r < IZR z + 1 -> trunc r = z.
Proof.
  intros H0 H. unfold trunc. rewrite Rleb_true by assumption.
  apply Zfloor_eq. exact H.
Qed.

Example trunc_negative : trunc (-1.5) = (-1)%Z.
Proof.
  unfold trunc. rcompare. unfold Zceil.
  rewrite (Zfloor_eq 1) by lra. reflexivity.
Qed.

(** C4, as stated, fails: at 16.67 Hz the ten-second window is 166
    samples, the truncation of 166.67, not the nearest integer 167. *)
Lemma C4_window_size_truncates :
  (rate <- App.infer_rate slow_logger ;; App.window_size rate) = Ok 166%Z
  /\ ~ nearest (1 / (0.06 - 0) * 10) 166
  /\ nearest (1 / (0.06 - 0) * 10) 167.
Proof.
  split; [|split].
  - unfold App.infer_rate, slow_logger. simpl. rcompare. simpl.
    unfold App.window_size. simpl. f_equal.
    apply trunc_eq_floor; lra.
  - unfold nearest, Rabs. destruct (Rcase_abs _); lra.
  - unfold nearest, Rabs. destruct (Rcase_abs _); lra.
Qed.

(** C4 (amended): the window size is [int(sampling_rate * 10)], the
    product truncated toward zero: for a finite rate it is the integer [z]
    with [z <= 10 r < z + 1] when the product is not negative and
    [z - 1 < 10 r <= z] when it is; an infinite rate raises an overflow
    error.  Both scripts compute it alike. *)
Theorem C4_window_size :
  (forall r : R, exists z : Z,
      App.window_size (Fin r) = Ok z
      /\ (0 <= r * 10 -> IZR z <= r * 10 < IZR z + 1)
      /\ (r * 10 < 0 -> IZR z - 1 < r * 10 <= IZR z))
  /\ App.window_size PInf = Raise OverflowError
  /\ App.window_size NInf = Raise OverflowError
  /\ (forall rate, Simple.window_size rate = App.window_size rate).
Proof.
  split; [|split; [|split]].
  - intros r. exists (trunc (r * 10)). split; [reflexivity|]. split.
    + apply trunc_nonneg.
    + apply trunc_neg.
  - unfold App.window_size. simpl. unfold signed_inf. rcompare. reflexivity.
  - unfold App.window_size. simpl. unfold signed_inf. rcompare. reflexivity.
  - reflexivity.
Qed.

Lemma C4_window_size_witness :
  exists z : Z,
    App.window_size (Fin 2.5) = Ok z /\ IZR z <= 2.5 * 10 < IZR z + 1.
Proof.
  destruct (proj1 C4_window_size 2.5) as [z [E [Hpos _]]].
  exists z. split; [exact E | apply Hpos; lra].
Defined.

(** ** Running the pipeline *)

Section Run.

Variable welch : welch_t.

Lemma analyze_ok (df : DataFrame) (a : Analysis) :
  App.analyze_gluten_development welch df = Ok a ->
  exists rate fs ps w roll k dom,
    App.infer_rate df = Ok rate
    /\ welch (column gFTotal df) rate 1024%nat = Ok (fs, ps)
    /\ App.window_size rate = Ok w
    /\ Series.rolling_std (column gFTotal df) w = Ok roll
    /\ Np.argmax ps = Ok k
    /\ Np.getitem fs k = Ok dom
    /\ a = {| total_time := Series.max (column time df);
              mean_gforce := Series.mean (column gFTotal df);
              std_gforce := Series.std (column gFTotal df);
              num_peaks := length (App.peaks df);
              sampling_rate := rate;
              dominant_freq := dom;
              rolling_std := roll |}.
Proof.
  unfold App.analyze_gluten_development. intros H.
  destruct (App.infer_rate df) as [rate|e] eqn:E1; simpl in H; [|discriminate].
  destruct (welch (column gFTotal df) rate 1024%nat) as [[fs ps]|e] eqn:E2;
    simpl in H; [|discriminate].
  destruct (App.window_size rate) as [w|e] eqn:E3; simpl in H; [|discriminate].
  destruct (Series.rolling_std (column gFTotal df) w) as [roll|e] eqn:E4;
    simpl in H; [|discriminate].
  destruct (Np.argmax ps) as [k|e] eqn:E5; simpl in H; [|discriminate].
  destruct (Np.getitem fs k) as [dom|e] eqn:E6; simpl in H; [|discriminate].
  injection H as <-.
  exists rate, fs, ps, w, roll, k, dom. repeat split; assumption.
Qed.

Lemma analyze_run (df : DataFrame) rate fs ps w roll k dom :
  App.infer_rate df = Ok rate ->
  welch (column gFTotal df) rate 1024%nat = Ok (fs, ps) ->
  App.window_size rate = Ok w ->
  Series.rolling_std (column gFTotal df) w = Ok roll ->
  Np.argmax ps = Ok k ->
  Np.getitem fs k = Ok dom ->
  App.analyze_gluten_development welch df
  = Ok {| total_time := Series.max (column time df);
          mean_gforce := Series.mean (column gFTotal df);
          std_gforce := Series.std (column gFTotal df);
          num_peaks := length (App.peaks df);
          sampling_rate := rate;
          dominant_freq := dom;
          rolling_std := roll |}.
Proof.
  intros H1 H2 H3 H4 H5 H6. unfold App.analyze_gluten_development.
  rewrite H1. simpl. rewrite H2. simpl. rewrite H3. simpl.
  rewrite H4. simpl. rewrite H5. simpl. rewrite H6. reflexivity.
Qed.

(** The console script runs the dashboard's pipeline and keeps the
    spectrum next to its results. *)
Lemma simple_analyze (df : DataFrame) :
  Simple.analyze_gluten_development welch df
  = (a <- App.analyze_gluten_development welch df ;;
     '(fs, ps) <- (rate <- App.infer_rate df ;;
                   welch (column gFTotal df) rate 1024%nat) ;;
     Ok {| summary := a; freqs := fs; psd := ps |}).
Proof.
  unfold Simple.analyze_gluten_development, App.analyze_gluten_development.
  change (Simple.infer_rate df) with (App.infer_rate df).
  destruct (App.infer_rate df) as [rate|e]; simpl; [|reflexivity].
  destruct (welch (column gFTotal df) rate 1024%nat) as [[fs ps]|e];
    simpl; [|reflexivity].
  change (Simple.window_size rate) with (App.window_size rate).
  destruct (App.window_size rate) as [w|e]; simpl; [|reflexivity].
  destruct (Series.rolling_std (column gFTotal df) w) as [roll|e];
    simpl; [|reflexivity].
  destruct (Np.argmax ps) as [k|e]; simpl; [|reflexivity].
  destruct (Np.getitem fs k) as [dom|e]; simpl; reflexivity.
Qed.

Lemma analyze_needs_two_samples (df : DataFrame) (a : Analysis) :
  App.analyze_gluten_development welch df = Ok a -> (2 <= length df)%nat.
Proof.
  intros H. apply analyze_ok in H.
  destruct H as (rate & fs & ps & w & roll & k & dom & Hr & _).
  destruct (le_lt_dec 2 (length df)) as [Hle|Hlt]; [exact Hle|].
  rewrite (infer_rate_short df Hlt) in Hr. discriminate Hr.
Qed.

End Run.

Lemma simple_summary (welch : welch_t) (df : DataFrame)
  (a : Analysis) (b : AnalysisSimple) :
  App.analyze_gluten_development welch df = Ok a ->
  Simple.analyze_gluten_development welch df = Ok b ->
  summary b = a.
Proof.
  intros Ha Hb. rewrite simple_analyze, Ha in Hb. simpl in Hb.
  destruct (rate <- App.infer_rate df;; welch (column gFTotal df) rate 1024%nat)
    as [[fs ps]|e]; simpl in Hb; [|discriminate].
  injection Hb as <-. reflexivity.
Qed.

Lemma bench_rate : App.infer_rate bench = Ok (Fin (1 / (0.1 - 0))).
Proof. unfold App.infer_rate, bench. simpl. rcompare. reflexivity. Qed.

Lemma bench_window : App.window_size (Fin (1 / (0.1 - 0))) = Ok 100%Z.
Proof.
  unfold App.window_size. simpl. f_equal. apply trunc_eq_floor; lra.
Qed.

Lemma bench_argmax : Np.argmax [Fin 1; Fin 3; Fin 3] = Ok 1%nat.
Proof. unfold Np.argmax. simpl. rcompare. simpl. rcompare. reflexivity. Qed.

Lemma bench_analysis :
  exists roll,
    App.analyze_gluten_development bench_welch bench
    = Ok {| total_time := Series.max (column time bench);
            mean_gforce := Series.mean (column gFTotal bench);
            std_gforce := Series.std (column gFTotal bench);
            num_peaks := length (App.peaks bench);
            sampling_rate := Fin (1 / (0.1 - 0));
            dominant_freq := Fin 0.5;
            rolling_std := roll |}.
Proof.
  eexists.
  apply (analyze_run bench_welch bench (Fin (1 / (0.1 - 0)))
           [Fin 0; Fin 0.5; Fin 1] [Fin 1; Fin 3; Fin 3] 100%Z _ 1%nat).
  - exact bench_rate.
  - reflexivity.
  - exact bench_window.
  - reflexivity.
  - exact bench_argmax.
  - reflexivity.
Qed.

(** ** Standard deviation *)

Lemma sum_sq_nonneg (m : R) (l : list R) :
  0 <= Series.sum (map (fun v => (v - m) * (v - m)) l).
Proof.
  induction l as [|v l IH]; simpl; [lra|].
  pose proof (Rle_0_sqr (v - m)) as Hsq. unfold Rsqr in Hsq. lra.
Qed.

Lemma ssqdm_nonneg (s : list R) : 0 <= Series.ssqdm s.
Proof. apply sum_sq_nonneg. Qed.

Lemma var_nonneg (s : list R) : (2 <= length s)%nat -> 0 <= Series.var_of 1 s.
Proof.
  intros H. unfold Series.var_of.
  apply Rmult_le_pos; [apply ssqdm_nonneg|].
  apply Rlt_le, Rinv_0_lt_compat. apply lt_0_INR. lia.
Qed.

Lemma std_defined (s : list R) :
  (2 <= length s)%nat -> Series.std s = Fin (sqrt (Series.var_of 1 s)).
Proof.
  intros H. unfold Series.std.
  destruct (Nat.ltb_spec 1 (length s)); [reflexivity | lia].
Qed.

Lemma std_missing (s : list R) : (length s < 2)%nat -> Series.std s = NaN.
Proof.
  intros H. unfold Series.std.
  destruct (Nat.ltb_spec 1 (length s)); [lia | reflexivity].
Qed.

Lemma var_two (a b : R) : Series.var_of 1 [a; b] = Rsqr (a - b) / 2.
Proof.
  unfold Series.var_of, Series.ssqdm, Series.mean_of, Series.sum, Rsqr.
  simpl. field.
Qed.

Lemma std_two (a b : R) : Series.std [a; b] = Fin (Rabs (a - b) / sqrt 2).
Proof.
  rewrite std_defined by (simpl; lia). f_equal.
  rewrite var_two. rewrite sqrt_div_alt by lra.
  rewrite sqrt_Rsqr_abs. reflexivity.
Qed.

Lemma population_std_two (a b : R) : population_std [a; b] = Rabs (a - b) / 2.
Proof.
  unfold population_std.
  replace (Series.ssqdm [a; b] / INR (length [a; b])) with (Rsqr ((a - b) / 2)).
  - rewrite sqrt_Rsqr_abs. unfold Rdiv. rewrite Rabs_mult.
    rewrite (Rabs_pos_eq (/ 2)) by lra. reflexivity.
  - unfold Series.ssqdm, Series.mean_of, Series.sum, Rsqr. simpl. field.
Qed.

Lemma sqrt2_neq_2 : sqrt 2 <> 2.
Proof.
  intros H. pose proof (sqrt_sqrt 2 ltac:(lra)) as Hs. rewrite H in Hs. lra.
Qed.

(** C10: the standard deviation of the magnitude channel is the sample
    standard deviation: non-negative, its square times [n - 1] is the sum
    of squared deviations; on two samples it is [|a - b| / sqrt 2], which
    is not the population value; and it is this value that enters the
    height passed to the peak detection and the variation coefficient, in
    both scripts. *)
Theorem C10_sample_std :
  (forall s : list R, (2 <= length s)%nat ->
     exists sd, Series.std s = Fin sd /\ 0 <= sd
                /\ sd * sd * INR (length s - 1) = Series.ssqdm s)
  /\ (forall a b : R, Series.std [a; b] = Fin (Rabs (a - b) / sqrt 2))
  /\ (forall a b : R, a <> b -> Series.std [a; b] <> Fin (population_std [a; b]))
  /\ (forall df : DataFrame,
        App.height df
        = fadd (Series.mean (column gFTotal df))
               (fmul (Fin 0.5) (Series.std (column gFTotal df)))
        /\ Simple.height df = App.height df)
  /\ (forall (welch : welch_t) (df : DataFrame) (a : Analysis),
        App.analyze_gluten_development welch df = Ok a ->
        std_gforce a = Series.std (column gFTotal df)
        /\ App.std_coefficient a
           = fdiv (Series.std (column gFTotal df))
                  (Series.mean (column gFTotal df))
        /\ Simple.std_coefficient a = App.std_coefficient a).
Proof.
  split; [|split; [|split; [|split]]].
  - intros s Hs. exists (sqrt (Series.var_of 1 s)).
    split; [apply std_defined; exact Hs|]. split; [apply sqrt_pos|].
    rewrite sqrt_sqrt by (apply var_nonneg; exact Hs).
    unfold Series.var_of. field. apply not_0_INR. lia.
  - apply std_two.
  - intros a b Hab. rewrite std_two, population_std_two. intros H.
    injection H as H.
    assert (Hpos : 0 < Rabs (a - b)) by (apply Rabs_pos_lt; lra).
    assert (Hs2 : 0 < sqrt 2) by (apply sqrt_lt_R0; lra).
    apply sqrt2_neq_2.
    apply (Rmult_eq_reg_l (Rabs (a - b) / (2 * sqrt 2))).
    + transitivity (Rabs (a - b) / 2); [field; lra|].
      rewrite <- H. field. lra.
    + apply Rgt_not_eq. apply Rdiv_lt_0_compat; lra.
  - intros df. split; reflexivity.
  - intros welch df a H. apply analyze_ok in H.
    destruct H as (rate & fs & ps & w & roll & k & dom & _ & _ & _ & _ & _ & _ & ->).
    repeat split.
Qed.

Lemma C10_sample_std_witness :
  (exists sd, Series.std [1; 3] = Fin sd /\ 0 <= sd
              /\ sd * sd * INR (length [1; 3] - 1) = Series.ssqdm [1; 3])
  /\ Series.std [1; 3] <> Fin (population_std [1; 3])
  /\ exists a, App.analyze_gluten_development bench_welch bench = Ok a
               /\ std_gforce a = Series.std (column gFTotal bench).
Proof.
  split; [|split].
  - apply (proj1 C10_sample_std [1; 3]). simpl. lia.
  - apply (proj1 (proj2 (proj2 C10_sample_std)) 1 3). lra.
  - destruct bench_analysis as [roll Hrun]. eexists. split; [exact Hrun|].
    exact (proj1 (proj2 (proj2 (proj2 (proj2 C10_sample_std)))
                    bench_welch bench _ Hrun)).
Defined.

(** ** Variation coefficient *)

Lemma assessment_high (c : R) : 0.1 < c -> App.assessment (Fin c) = HighVariation.
Proof. intros H. unfold App.assessment, fgtb. simpl. rcompare. reflexivity. Qed.

Lemma assessment_moderate (c : R) :
  0.05 < c <= 0.1 -> App.assessment (Fin c) = ModerateVariation.
Proof. intros H. unfold App.assessment, fgtb. simpl. rcompare. reflexivity. Qed.

Lemma assessment_low (c : R) : c <= 0.05 -> App.assessment (Fin c) = LowVariation.
Proof. intros H. unfold App.assessment, fgtb. simpl. rcompare. reflexivity. Qed.

(** C5: the analysis stores the mean [m] of the magnitude column, its sum
    divided by the number of samples, and the sample standard deviation
    [sd], the root of the summed squared deviations from [m] divided by
    [n - 1]; when [m] is positive the variation coefficient is [sd / m],
    and it is assessed high above 0.10, moderate in (0.05, 0.10] and low
    up to 0.05; 0.04, 0.05, 0.06, 0.10 and 0.11 are low, low, moderate,
    moderate and high.  Both scripts agree. *)
Theorem C5_variation_coefficient :
  (forall (welch : welch_t) (df : DataFrame) (a : Analysis),
      App.analyze_gluten_development welch df = Ok a ->
      exists m sd : R,
        m = Series.sum (column gFTotal df) / INR (length df)
        /\ sd = sqrt (Series.sum (map (fun v => (v - m) * (v - m))
                                      (column gFTotal df))
                      / INR (length df - 1))
        /\ 0 <= sd
        /\ mean_gforce a = Fin m
        /\ std_gforce a = Fin sd
        /\ (0 < m ->
            App.std_coefficient a = Fin (sd / m)
            /\ Simple.std_coefficient a = Fin (sd / m)
            /\ (0.1 < sd / m ->
                App.assessment (App.std_coefficient a) = HighVariation
                /\ Simple.assessment (Simple.std_coefficient a) = HighVariation)
            /\ (0.05 < sd / m <= 0.1 ->
                App.assessment (App.std_coefficient a) = ModerateVariation
                /\ Simple.assessment (Simple.std_coefficient a)
                   = ModerateVariation)
            /\ (sd / m <= 0.05 ->
                App.assessment (App.std_coefficient a) = LowVariation
                /\ Simple.assessment (Simple.std_coefficient a) = LowVariation)))
  /\ (forall c : R,
        (0.1 < c -> App.assessment (Fin c) = HighVariation)
        /\ (0.05 < c <= 0.1 -> App.assessment (Fin c) = ModerateVariation)
        /\ (c <= 0.05 -> App.assessment (Fin c) = LowVariation))
  /\ (forall c : float, Simple.assessment c = App.assessment c)
  /\ App.assessment (Fin 0.04) = LowVariation
  /\ App.assessment (Fin 0.05) = LowVariation
  /\ App.assessment (Fin 0.06) = ModerateVariation
  /\ App.assessment (Fin 0.10) = ModerateVariation
  /\ App.assessment (Fin 0.11) = HighVariation.
Proof.
  split; [|split; [|split]].
  - intros welch df a H.
    pose proof (analyze_needs_two_samples welch df a H) as Hlen.
    apply analyze_ok in H.
    destruct H as (rate & fs & ps & w & roll & k & dom & _ & _ & _ & _ & _ & _ & ->).
    assert (Hcol : length (column gFTotal df) = length df)
      by (unfold column; apply length_map).
    assert (Hlen' : (2 <= length (column gFTotal df))%nat)
      by (rewrite Hcol; exact Hlen).
    assert (Hmean : Series.mean (column gFTotal df)
                    = Fin (Series.sum (column gFTotal df) / INR (length df))).
    { unfold Series.mean. destruct (column gFTotal df) as [|v l] eqn:E;
        [simpl in Hlen'; lia|].
      unfold Series.mean_of. rewrite Hcol. reflexivity. }
    assert (Hstd : Series.std (column gFTotal df)
                   = Fin (sqrt (Series.sum
                                  (map (fun v =>
                                          (v - Series.sum (column gFTotal df)
                                               / INR (length df))
                                          * (v - Series.sum (column gFTotal df)
                                                 / INR (length df)))
                                       (column gFTotal df))
                                / INR (length df - 1)))).
    { rewrite (std_defined _ Hlen').
      unfold Series.var_of, Series.ssqdm, Series.mean_of. rewrite Hcol.
      reflexivity. }
    eexists. eexists. split; [reflexivity|]. split; [reflexivity|].
    split; [apply sqrt_pos|].
    cbn [mean_gforce std_gforce]. split; [exact Hmean|]. split; [exact Hstd|].
    intros Hpos.
    unfold App.std_coefficient, Simple.std_coefficient.
    cbn [mean_gforce std_gforce]. rewrite Hmean, Hstd. cbn [fdiv].
    rewrite Reqb_false by lra.
    change (Simple.assessment ?c) with (App.assessment c).
    split; [reflexivity|]. split; [reflexivity|].
    split; [intros Hc; split; apply assessment_high; exact Hc|].
    split; [intros Hc; split; apply assessment_moderate; exact Hc|].
    intros Hc; split; apply assessment_low; exact Hc.
  - intros c. split; [apply assessment_high|].
    split; [apply assessment_moderate | apply assessment_low].
  - reflexivity.
  - repeat split.
    + apply assessment_low; lra.
    + apply assessment_low; lra.
    + apply assessment_moderate; lra.
    + apply assessment_moderate; lra.
    + apply assessment_high; lra.
Qed.

(** The pipeline on [grazing]: magnitudes 0, 2, 0, 3 have mean 1.25 and
    sample standard deviation 1.5. *)
Lemma grazing_run :
  exists a, App.analyze_gluten_development bench_welch grazing = Ok a.
Proof.
  eexists.
  apply (analyze_run bench_welch grazing (Fin (1 / (0.1 - 0)))
           [Fin 0; Fin 0.5; Fin 1] [Fin 1; Fin 3; Fin 3] 100%Z
           [NaN; NaN; NaN; NaN] 1%nat).
  - unfold App.infer_rate, grazing. simpl. rcompare. reflexivity.
  - reflexivity.
  - exact bench_window.
  - reflexivity.
  - exact bench_argmax.
  - reflexivity.
Qed.

Lemma C5_variation_coefficient_witness :
  (exists a,
      App.analyze_gluten_development bench_welch grazing = Ok a
      /\ mean_gforce a = Fin 1.25
      /\ std_gforce a = Fin 1.5
      /\ App.std_coefficient a = Fin (1.5 / 1.25)
      /\ App.assessment (App.std_coefficient a) = HighVariation)
  /\ App.assessment (Fin 0.2) = HighVariation
  /\ App.assessment (Fin 0.07) = ModerateVariation
  /\ App.assessment (Fin 0.01) = LowVariation.
Proof.
  split; [|split; [|split]].
  - destruct grazing_run as [a Hrun].
    destruct (proj1 C5_variation_coefficient bench_welch grazing a Hrun)
      as (m & sd & Em & Esd & _ & Hmean & Hstd & Hcoef).
    assert (Hm : m = 1.25).
    { rewrite Em. unfold Series.sum. simpl. lra. }
    rewrite Hm in Esd, Hmean, Hcoef.
    assert (Hs : sd = 1.5).
    { rewrite Esd. rewrite <- (sqrt_square 1.5) by lra. f_equal.
      unfold Series.sum. simpl. lra. }
    rewrite Hs in Hstd, Hcoef.
    destruct (Hcoef ltac:(lra)) as (Hc & _ & Hhigh & _).
    exists a. split; [exact Hrun|]. split; [exact Hmean|].
    split; [exact Hstd|]. split; [exact Hc|].
    apply Hhigh. lra.
  - apply (proj1 (proj1 (proj2 C5_variation_coefficient) 0.2)). lra.
  - apply (proj1 (proj2 (proj1 (proj2 C5_variation_coefficient) 0.07))). lra.
  - apply (proj2 (proj2 (proj1 (proj2 C5_variation_coefficient) 0.01))). lra.
Defined.

(** ** The two entry points *)

(** C9: whenever both scripts' [analyze_gluten_development] succeed on a
    recording, every field they share holds the same value. *)
Theorem C9_same_results (welch : welch_t) (df : DataFrame)
  (a : Analysis) (b : AnalysisSimple) :
  App.analyze_gluten_development welch df = Ok a ->
  Simple.analyze_gluten_development welch df = Ok b ->
  total_time (summary b) = total_time a
  /\ mean_gforce (summary b) = mean_gforce a
  /\ std_gforce (summary b) = std_gforce a
  /\ num_peaks (summary b) = num_peaks a
  /\ sampling_rate (summary b) = sampling_rate a
  /\ dominant_freq (summary b) = dominant_freq a
  /\ rolling_std (summary b) = rolling_std a.
Proof.
  intros Ha Hb. rewrite (simple_summary welch df a b Ha Hb). repeat split.
Qed.

Lemma C9_same_results_witness :
  exists a b,
    App.analyze_gluten_development bench_welch bench = Ok a
    /\ Simple.analyze_gluten_development bench_welch bench = Ok b
    /\ dominant_freq (summary b) = dominant_freq a
    /\ rolling_std (summary b) = rolling_std a.
Proof.
  destruct bench_analysis as [roll Hrun].
  assert (Hb : exists b, Simple.analyze_gluten_development bench_welch bench = Ok b).
  { rewrite simple_analyze, Hrun, bench_rate. eexists. reflexivity. }
  destruct Hb as [b Hb].
  eexists. exists b. split; [exact Hrun|]. split; [exact Hb|].
  pose proof (C9_same_results bench_welch bench _ b Hrun Hb) as H.
  split; [exact (proj1 (proj2 (proj2 (proj2 (proj2 (proj2 H))))))
         | exact (proj2 (proj2 (proj2 (proj2 (proj2 (proj2 H))))))].
Defined.

(** ** Rolling standard deviation *)

Ltac zlia := zify; Z.div_mod_to_equations; lia.

Lemma rolling_std_ok (x : list R) (window : Z) :
  (0 <= window)%Z ->
  Series.rolling_std x window
  = Ok (map (rolling_entry x window) (seq 0 (length x))).
Proof.
  intros H. unfold Series.rolling_std.
  destruct (Z.ltb_spec window 0); [lia | reflexivity].
Qed.

Lemma rolling_std_negative (x : list R) (window : Z) :
  (window < 0)%Z -> Series.rolling_std x window = Raise ValueError.
Proof.
  intros H. unfold Series.rolling_std.
  destruct (Z.ltb_spec window 0); [reflexivity | lia].
Qed.

Lemma rolling_nth (x : list R) (window : Z) (i : nat) :
  (i < length x)%nat ->
  nth i (map (rolling_entry x window) (seq 0 (length x))) NaN
  = rolling_entry x window i.
Proof.
  intros H.
  rewrite (nth_indep _ NaN (rolling_entry x window 0%nat))
    by (rewrite length_map, length_seq; exact H).
  rewrite map_nth. rewrite seq_nth by exact H. reflexivity.
Qed.

Lemma clip_le (z : Z) (n : nat) : (Series.clip z n <= n)%nat.
Proof. unfold Series.clip. lia. Qed.

Lemma slice_length (x : list R) (start stop : nat) :
  (stop <= length x)%nat ->
  length (Series.slice x start stop) = (stop - start)%nat.
Proof.
  intros H. unfold Series.slice. rewrite length_firstn, length_skipn. lia.
Qed.

Lemma window_std_missing (window : Z) (w : list R) :
  Series.window_std window w = NaN
  <-> ~ ((window <= Z.of_nat (length w))%Z /\ (1 < length w)%nat).
Proof.
  unfold Series.window_std.
  destruct (Z.leb_spec window (Z.of_nat (length w)));
    destruct (Nat.ltb_spec 1 (length w)); simpl; split; intros;
    try reflexivity; try discriminate; try lia.
Qed.

Lemma window_length (x : list R) (window : Z) (i : nat) :
  length (Series.slice x (fst (Series.window_bounds (length x) window i))
                         (snd (Series.window_bounds (length x) window i)))
  = (Series.clip (Z.of_nat i + 1 + (window - 1) / 2) (length x)
     - Series.clip (Z.of_nat i + 1 + (window - 1) / 2 - window) (length x))%nat.
Proof.
  unfold Series.window_bounds. cbn [fst snd].
  apply slice_length. apply clip_le.
Qed.

Lemma rolling_entry_unfold (x : list R) (window : Z) (i : nat) :
  rolling_entry x window i
  = Series.window_std window
      (Series.slice x (fst (Series.window_bounds (length x) window i))
                      (snd (Series.window_bounds (length x) window i))).
Proof. reflexivity. Qed.

(** With a window of at least two samples, the entry at [i] is missing
    exactly in the leading [w // 2] and the trailing [(w - 1) // 2]
    positions. *)
Lemma rolling_entry_missing (x : list R) (window : Z) (i : nat) :
  (2 <= window)%Z -> (i < length x)%nat ->
  rolling_entry x window i = NaN
  <-> (Z.of_nat i < window / 2
       \/ Z.of_nat (length x) - 1 - Z.of_nat i < (window - 1) / 2)%Z.
Proof.
  intros Hw Hi. rewrite rolling_entry_unfold, window_std_missing, window_length.
  unfold Series.clip. zlia.
Qed.

(** With a window of fewer than two samples every entry is missing. *)
Lemma rolling_entry_degenerate (x : list R) (window : Z) (i : nat) :
  (0 <= window < 2)%Z -> rolling_entry x window i = NaN.
Proof.
  intros Hw. rewrite rolling_entry_unfold, window_std_missing, window_length.
  unfold Series.clip. zlia.
Qed.

Lemma in_firstn_in (k : nat) (l : list R) (v : R) : In v (firstn k l) -> In v l.
Proof.
  revert l. induction k as [|k IH]; intros [|h t] H; simpl in *; try easy.
  destruct H as [H|H]; [left; exact H | right; apply IH; exact H].
Qed.

Lemma in_skipn_in (k : nat) (l : list R) (v : R) : In v (skipn k l) -> In v l.
Proof.
  revert l. induction k as [|k IH]; intros [|h t] H; simpl in *; try easy.
  right. apply IH. exact H.
Qed.

Lemma in_slice_in (x : list R) (start stop : nat) (v : R) :
  In v (Series.slice x start stop) -> In v x.
Proof.
  unfold Series.slice. intros H.
  apply in_skipn_in with start. apply in_firstn_in with (stop - start)%nat.
  exact H.
Qed.

Section Constant.

Variable c : R.

Lemma sum_constant (l : list R) :
  constant c l -> Series.sum l = c * INR (length l).
Proof.
  induction l as [|h t IH]; intros H.
  - simpl. lra.
  - change (Series.sum (h :: t)) with (h + Series.sum t).
    change (length (h :: t)) with (S (length t)). rewrite S_INR.
    rewrite IH by (intros v Hv; apply H; right; exact Hv).
    rewrite (H h) by (left; reflexivity). lra.
Qed.

Lemma mean_constant (l : list R) :
  constant c l -> l <> [] -> Series.mean_of l = c.
Proof.
  intros H Hne. unfold Series.mean_of. rewrite sum_constant by exact H.
  field. apply not_0_INR. destruct l; [contradiction | simpl; lia].
Qed.

Lemma sum_sq_constant (l : list R) :
  constant c l -> Series.sum (map (fun v => (v - c) * (v - c)) l) = 0.
Proof.
  induction l as [|h t IH]; intros H; simpl; [reflexivity|].
  rewrite IH by (intros v Hv; apply H; right; exact Hv).
  rewrite (H h) by (left; reflexivity). lra.
Qed.

Lemma var_constant (l : list R) : constant c l -> Series.var_of 1 l = 0.
Proof.
  intros H. unfold Series.var_of, Series.ssqdm.
  destruct l as [|h t]; [simpl; lra|].
  rewrite mean_constant by (exact H || discriminate).
  rewrite sum_sq_constant by exact H. lra.
Qed.

Lemma window_std_constant (window : Z) (l : list R) :
  constant c l ->
  Series.window_std window l <> NaN -> Series.window_std window l = Fin 0.
Proof.
  intros H. unfold Series.window_std.
  destruct ((window <=? Z.of_nat (length l))%Z && (1 <? length l)%nat);
    [|intros Hn; contradiction].
  intros _. rewrite var_constant by exact H. rewrite sqrt_0. reflexivity.
Qed.

Lemma rolling_entry_constant (x : list R) (window : Z) (i : nat) :
  constant c x ->
  rolling_entry x window i <> NaN -> rolling_entry x window i = Fin 0.
Proof.
  intros H. rewrite rolling_entry_unfold. apply window_std_constant.
  intros v Hv. apply H. apply in_slice_in in Hv. exact Hv.
Qed.

End Constant.

Lemma rolling_three_window_two (a b c : R) :
  Series.rolling_std [a; b; c] 2
  = Ok [NaN; Fin (sqrt (Series.var_of 1 [a; b]));
        Fin (sqrt (Series.var_of 1 [b; c]))].
Proof. reflexivity. Qed.

(** An odd window is centred; an even window of four reaches two samples
    to the left and one to the right. *)
Example rolling_five_window_three (a b c d e : R) :
  Series.rolling_std [a; b; c; d; e] 3
  = Ok [NaN; Fin (sqrt (Series.var_of 1 [a; b; c]));
        Fin (sqrt (Series.var_of 1 [b; c; d]));
        Fin (sqrt (Series.var_of 1 [c; d; e])); NaN].
Proof. reflexivity. Qed.

Example rolling_six_window_four (a b c d e f : R) :
  Series.rolling_std [a; b; c; d; e; f] 4
  = Ok [NaN; NaN; Fin (sqrt (Series.var_of 1 [a; b; c; d]));
        Fin (sqrt (Series.var_of 1 [b; c; d; e]));
        Fin (sqrt (Series.var_of 1 [c; d; e; f])); NaN].
Proof. reflexivity. Qed.

(** C3, as stated, fails: with an even window the window labelled [i]
    covers [i - w/2 .. i + w/2 - 1], so the trailing margin is one sample
    shorter; with a window of two the last sample itself has a value. *)
Lemma C3_last_sample_defined :
  Series.rolling_std [1; 2; 3] 2
  = Ok [NaN; Fin (sqrt (Series.var_of 1 [1; 2]));
        Fin (sqrt (Series.var_of 1 [2; 3]))]
  /\ ~ edges_missing [1; 2; 3] 2
         [NaN; Fin (sqrt (Series.var_of 1 [1; 2]));
          Fin (sqrt (Series.var_of 1 [2; 3]))].
Proof.
  split; [apply rolling_three_window_two|].
  intros H. specialize (H 2%nat). simpl in H.
  assert (Hn : Fin (sqrt (Series.var_of 1 [2; 3])) = NaN).
  { apply H; [lia|]. right. reflexivity. }
  discriminate Hn.
Qed.

(** C3 (amended): for a window of at least two samples the rolling series
    has the length of the input; the entry at [i] is missing exactly when
    [i < w // 2] or [n - 1 - i < (w - 1) // 2], so for an even window the
    trailing margin is one sample shorter than the leading one; and on a
    constant input every entry that is not missing is 0. *)
Theorem C3_rolling_std (x : list R) (window : Z) :
  (2 <= window)%Z ->
  exists r : list float,
    Series.rolling_std x window = Ok r
    /\ length r = length x
    /\ (forall i : nat, (i < length x)%nat ->
          nth i r NaN = NaN
          <-> (Z.of_nat i < window / 2
               \/ Z.of_nat (length x) - 1 - Z.of_nat i < (window - 1) / 2)%Z)
    /\ (forall c : R, constant c x ->
          forall i : nat, (i < length x)%nat ->
            nth i r NaN <> NaN -> nth i r NaN = Fin 0).
Proof.
  intros Hw. exists (map (rolling_entry x window) (seq 0 (length x))).
  split; [apply rolling_std_ok; lia|].
  split; [rewrite length_map, length_seq; reflexivity|].
  split.
  - intros i Hi. rewrite rolling_nth by exact Hi.
    apply rolling_entry_missing; assumption.
  - intros c Hc i Hi. rewrite rolling_nth by exact Hi.
    apply rolling_entry_constant with c. exact Hc.
Qed.

Lemma C3_rolling_std_witness :
  exists r : list float,
    Series.rolling_std [1; 1; 1] 2 = Ok r
    /\ length r = 3%nat
    /\ nth 0 r NaN = NaN
    /\ nth 2 r NaN = Fin 0.
Proof.
  destruct (C3_rolling_std [1; 1; 1] 2 ltac:(lia)) as (r & Hr & Hlen & Hmiss & Hconst).
  exists r. split; [exact Hr|]. split; [exact Hlen|]. split.
  - apply (Hmiss 0%nat); [simpl; lia|]. left. reflexivity.
  - apply (Hconst 1); [|simpl; lia|].
    + intros v [H|[H|[H|[]]]]; symmetry; exact H.
    + intros Hn. apply (Hmiss 2%nat) in Hn; [|simpl; lia].
      simpl in Hn. destruct Hn as [Hn|Hn]; [discriminate Hn | discriminate Hn].
Defined.

Lemma map_all (f : nat -> float) (v : float) (l : list nat) :
  (forall i, f i = v) -> map f l = repeat v (length l).
Proof.
  intros H. induction l as [|h t IH]; simpl; [reflexivity|].
  rewrite H, IH. reflexivity.
Qed.

Lemma rolling_std_degenerate (x : list R) (window : Z) :
  (0 <= window < 2)%Z ->
  Series.rolling_std x window = Ok (repeat NaN (length x)).
Proof.
  intros H. rewrite rolling_std_ok by lia. f_equal.
  rewrite (map_all _ NaN) by (intros i; apply rolling_entry_degenerate; exact H).
  rewrite length_seq. reflexivity.
Qed.

(** C8, as stated, fails: a window of one sample raises nothing, the
    call returns a series of missing values. *)
Lemma C8_window_one_returns :
  Series.rolling_std [1; 2; 3] 1 = Ok [NaN; NaN; NaN]
  /\ ~ fails (Series.rolling_std [1; 2; 3] 1).
Proof.
  assert (E : Series.rolling_std [1; 2; 3] 1 = Ok [NaN; NaN; NaN])
    by (apply (rolling_std_degenerate [1; 2; 3] 1); lia).
  split; [exact E|]. rewrite E. intros [e He]. discriminate He.
Qed.

(** C8 (amended): with a window of 0 or 1 sample the call does not fail,
    it returns a series of the input's length in which every entry is
    missing; only a negative window fails, with a value error. *)
Theorem C8_degenerate_window (x : list R) (window : Z) :
  (window < 2)%Z ->
  ((0 <= window)%Z ->
     Series.rolling_std x window = Ok (repeat NaN (length x)))
  /\ ((window < 0)%Z -> Series.rolling_std x window = Raise ValueError).
Proof.
  intros H. split.
  - intros H0. apply rolling_std_degenerate. lia.
  - apply rolling_std_negative.
Qed.

Lemma C8_degenerate_window_witness :
  Series.rolling_std [1; 2; 3] 0 = Ok (repeat NaN 3)
  /\ Series.rolling_std [1; 2; 3] 1 = Ok (repeat NaN 3)
  /\ Series.rolling_std [1; 2; 3] (-1) = Raise ValueError.
Proof.
  split; [|split].
  - apply (proj1 (C8_degenerate_window [1; 2; 3] 0 ltac:(lia))). lia.
  - apply (proj1 (C8_degenerate_window [1; 2; 3] 1 ltac:(lia))). lia.
  - apply (proj2 (C8_degenerate_window [1; 2; 3] (-1) ltac:(lia))). lia.
Defined.

(** ** High-activity periods *)

Lemma dropna_all_missing (s : list float) : all_missing s -> Series.dropna s = [].
Proof.
  induction s as [|h t IH]; intros H; [reflexivity|].
  unfold Series.dropna. simpl. rewrite (H h) by (left; reflexivity). simpl.
  apply IH. intros v Hv. apply H. right. exact Hv.
Qed.

Lemma quantile_all_missing (s : list float) (q : R) :
  all_missing s -> Series.quantile s q = NaN.
Proof.
  intros H. unfold Series.quantile. rewrite dropna_all_missing by exact H.
  reflexivity.
Qed.

Lemma gt_nan (s : list float) : Series.gt s NaN = repeat false (length s).
Proof.
  induction s as [|h t IH]; [reflexivity|].
  unfold Series.gt in *. cbn [map length repeat]. rewrite IH. reflexivity.
Qed.

Lemma count_true_none (n : nat) : Series.count_true (repeat false n) = 0%nat.
Proof. induction n as [|n IH]; [reflexivity | exact IH]. Qed.

Lemma any_none (n : nat) : Series.any (repeat false n) = false.
Proof. induction n as [|n IH]; [reflexivity | exact IH]. Qed.

Lemma bench_rolling :
  Series.rolling_std (column gFTotal bench) 100 = Ok [NaN; NaN; NaN; NaN].
Proof. reflexivity. Qed.

Lemma bench_run :
  App.analyze_gluten_development bench_welch bench = Ok bench_result.
Proof.
  apply (analyze_run bench_welch bench (Fin (1 / (0.1 - 0)))
           [Fin 0; Fin 0.5; Fin 1] [Fin 1; Fin 3; Fin 3] 100%Z _ 1%nat).
  - exact bench_rate.
  - reflexivity.
  - exact bench_window.
  - exact bench_rolling.
  - exact bench_argmax.
  - reflexivity.
Qed.

Lemma bench_all_missing : all_missing (rolling_std bench_result).
Proof.
  intros v H. simpl in H.
  destruct H as [H|[H|[H|[H|[]]]]]; symmetry; exact H.
Qed.

(** C7, as stated, fails: a four-sample recording at 10 Hz has a rolling
    series without a value; the percentile is then NaN, the count of
    high-activity samples is 0, and nothing is raised. *)
Lemma C7_no_activity_data_is_silent :
  App.analyze_gluten_development bench_welch bench = Ok bench_result
  /\ all_missing (rolling_std bench_result)
  /\ Series.quantile (rolling_std bench_result) 0.75 = NaN
  /\ Simple.high_activity_periods bench_result = Ok 0%nat
  /\ ~ fails (Simple.high_activity_periods bench_result)
  /\ ~ fails (App.high_activity_periods bench_result).
Proof.
  split; [exact bench_run|]. split; [exact bench_all_missing|].
  split; [apply quantile_all_missing, bench_all_missing|].
  assert (E : Simple.high_activity_periods bench_result = Ok 0%nat).
  { unfold Simple.high_activity_periods.
    rewrite quantile_all_missing by exact bench_all_missing.
    rewrite gt_nan, count_true_none. reflexivity. }
  split; [exact E|]. split.
  - rewrite E. intros [e He]. discriminate He.
  - unfold App.high_activity_periods. intros [e He]. discriminate He.
Qed.

(** C7 (amended): when the rolling series has no value, nothing fails:
    the 75th percentile is NaN, every comparison against it is false, so
    the console script counts 0 high-activity samples and the dashboard's
    mask has no true entry. *)
Theorem C7_all_missing (a : Analysis) :
  all_missing (rolling_std a) ->
  Series.quantile (rolling_std a) 0.75 = NaN
  /\ Simple.high_activity_periods a = Ok 0%nat
  /\ exists mask : list bool,
       App.high_activity_periods a = Ok mask
       /\ Series.any mask = false
       /\ Series.count_true mask = 0%nat.
Proof.
  intros H. split; [apply quantile_all_missing; exact H|]. split.
  - unfold Simple.high_activity_periods.
    rewrite quantile_all_missing by exact H.
    rewrite gt_nan, count_true_none. reflexivity.
  - exists (repeat false (length (rolling_std a))).
    unfold App.high_activity_periods.
    rewrite quantile_all_missing by exact H. rewrite gt_nan.
    split; [reflexivity|]. split; [apply any_none | apply count_true_none].
Qed.

Lemma C7_all_missing_witness :
  Series.quantile (rolling_std bench_result) 0.75 = NaN
  /\ Simple.high_activity_periods bench_result = Ok 0%nat.
Proof.
  destruct (C7_all_missing bench_result bench_all_missing) as (Hq & Hc & _).
  split; [exact Hq | exact Hc].
Defined.

(** With values present the percentile interpolates between the sorted
    values and the comparison counts the samples above it. *)
Example sort_example :
  Series.sort (Series.dropna [Fin 1; NaN; Fin 3; Fin 2]) = [Fin 1; Fin 2; Fin 3].
Proof.
  unfold Series.sort, Series.dropna. simpl. rcompare. simpl. rcompare.
  reflexivity.
Qed.

Example quantile_example :
  Series.quantile [Fin 1; NaN; Fin 3; Fin 2] 0.75 = Fin 2.5.
Proof.
  unfold Series.quantile. rewrite sort_example.
  cbv zeta. change (length [Fin 1; Fin 2; Fin 3] - 1)%nat with 2%nat.
  assert (Hf : Zfloor (0.75 * INR 2) = 1%Z).
  { apply Zfloor_eq. simpl. lra. }
  rewrite Hf. simpl. f_equal. lra.
Qed.

Example high_activity_example :
  Simple.high_activity_periods
    {| total_time := Fin 0.3; mean_gforce := Fin 1; std_gforce := Fin 0;
       num_peaks := 0; sampling_rate := Fin 10; dominant_freq := Fin 0;
       rolling_std := [Fin 1; NaN; Fin 3; Fin 2] |}
  = Ok 1%nat.
Proof.
  unfold Simple.high_activity_periods. cbn [rolling_std].
  rewrite quantile_example. unfold Series.gt, Series.count_true, fgtb.
  simpl. rcompare. reflexivity.
Qed.

(** ** Dominant frequency *)

Lemma skipn_cons_inv (i : nat) (ps : list R) (v : R) (rest : list R) :
  skipn i ps = v :: rest ->
  nth i ps 0 = v /\ skipn (S i) ps = rest /\ (i < length ps)%nat.
Proof.
  revert ps. induction i as [|i IH]; intros ps H.
  - destruct ps as [|h t]; [discriminate|]. simpl in H. injection H as -> ->.
    simpl. repeat split. lia.
  - destruct ps as [|h t]; [discriminate|].
    change (skipn (S i) (h :: t)) with (skipn i t) in H.
    destruct (IH t H) as (Hn & Hs & Hl).
    repeat split; [exact Hn | exact Hs | simpl; lia].
Qed.

Lemma skipn_nil_inv (i : nat) (ps : list R) :
  skipn i ps = [] -> (length ps <= i)%nat.
Proof.
  intros H. pose proof (length_skipn i ps) as Hl. rewrite H in Hl.
  simpl in Hl. lia.
Qed.

Lemma argmax_loop_first_max (ps : list R) :
  forall (l : list R) (m : R) (best i : nat),
    skipn i ps = l -> (best < i)%nat -> (i <= length ps)%nat ->
    nth best ps 0 = m ->
    (forall j, (j < i)%nat -> nth j ps 0 <= m) ->
    (forall j, (j < best)%nat -> nth j ps 0 < m) ->
    first_max ps (Np.argmax_loop (Fin m) best i (map Fin l)).
Proof.
  induction l as [|v rest IH]; intros m best i Hs Hb Hi Hm Hle Hlt.
  - apply skipn_nil_inv in Hs. simpl. unfold first_max. rewrite Hm.
    repeat split; [lia | intros j Hj; apply Hle; lia | exact Hlt].
  - apply skipn_cons_inv in Hs. destruct Hs as (Hv & Hs & Hil).
    simpl. unfold Rleb. destruct (Rle_dec v m) as [Hvm|Hvm]; simpl.
    + apply IH; try assumption; try lia.
      intros j Hj. destruct (Nat.eq_dec j i) as [->|Hne];
        [rewrite Hv; exact Hvm | apply Hle; lia].
    + apply IH; try assumption; try lia.
      * intros j Hj. destruct (Nat.eq_dec j i) as [->|Hne];
          [rewrite Hv; lra|].
        assert (nth j ps 0 <= m) by (apply Hle; lia). lra.
      * intros j Hj. assert (nth j ps 0 <= m) by (apply Hle; lia). lra.
Qed.

Lemma argmax_first_max (ps : list R) (k : nat) :
  Np.argmax (map Fin ps) = Ok k -> first_max ps k.
Proof.
  destruct ps as [|v rest]; [discriminate|].
  simpl. intros H. injection H as <-.
  apply (argmax_loop_first_max (v :: rest) rest v 0%nat 1%nat);
    try reflexivity; simpl; try lia.
  intros j Hj. assert (j = 0%nat) as -> by lia. simpl. lra.
Qed.

Lemma getitem_finite (fs : list R) (k : nat) (v : float) :
  Np.getitem (map Fin fs) k = Ok v ->
  (k < length fs)%nat /\ v = Fin (nth k fs 0).
Proof.
  unfold Np.getitem. intros H.
  destruct (nth_error (map Fin fs) k) as [u|] eqn:E; [|discriminate].
  injection H as <-.
  assert (Hk : (k < length fs)%nat).
  { rewrite <- (length_map Fin). apply nth_error_Some. rewrite E. discriminate. }
  split; [exact Hk|].
  rewrite nth_error_map in E.
  rewrite (nth_error_nth' fs 0 Hk) in E. simpl in E. injection E as <-.
  reflexivity.
Qed.

(** C6: the dominant frequency is the bin at the first position where
    the spectrum attains its maximum; when the bins ascend, it is the
    lowest frequency among the bins of maximal power.  Both scripts report
    the same frequency. *)
Theorem C6_dominant_frequency (welch : welch_t) (df : DataFrame)
  (a : Analysis) (rate : float) (fs ps : list R) :
  App.analyze_gluten_development welch df = Ok a ->
  App.infer_rate df = Ok rate ->
  welch (column gFTotal df) rate 1024%nat = Ok (map Fin fs, map Fin ps) ->
  exists k : nat,
    first_max ps k
    /\ (k < length fs)%nat
    /\ dominant_freq a = Fin (nth k fs 0)
    /\ (ascending fs ->
        forall j, (j < length ps)%nat -> (j < length fs)%nat ->
          nth j ps 0 = nth k ps 0 -> nth k fs 0 <= nth j fs 0)
    /\ (forall b, Simple.analyze_gluten_development welch df = Ok b ->
          dominant_freq (summary b) = Fin (nth k fs 0)).
Proof.
  intros Ha Hr Hw. pose proof Ha as Hrun. apply analyze_ok in Ha.
  destruct Ha as (rate' & fs' & ps' & w & roll & k & dom
                  & Hr' & Hw' & _ & _ & Hk & Hd & ->).
  rewrite Hr in Hr'. injection Hr' as <-.
  rewrite Hw in Hw'. injection Hw' as <- <-.
  apply argmax_first_max in Hk. apply getitem_finite in Hd.
  destruct Hd as [Hkf ->].
  exists k. split; [exact Hk|]. split; [exact Hkf|].
  split; [reflexivity|]. split.
  - intros Hasc j Hj Hjf Heq. destruct Hk as (_ & _ & Hfirst).
    destruct (lt_eq_lt_dec j k) as [[Hlt | ->] | Hgt].
    + specialize (Hfirst j Hlt). lra.
    + lra.
    + apply Rlt_le. apply Hasc; assumption.
  - intros b Hb.
    rewrite (simple_summary welch df _ b Hrun Hb). reflexivity.
Qed.

Lemma C6_dominant_frequency_witness :
  exists k : nat,
    first_max [1; 3; 3] k
    /\ dominant_freq bench_result = Fin (nth k [0; 0.5; 1] 0).
Proof.
  destruct (C6_dominant_frequency bench_welch bench bench_result
              (Fin (1 / (0.1 - 0))) [0; 0.5; 1] [1; 3; 3]
              bench_run bench_rate eq_refl)
    as (k & Hk & _ & Hd & _).
  exists k. split; [exact Hk | exact Hd].
Defined.

(** ** Peak detection *)

Lemma look_ahead_spec (x : list R) (i i_max : nat) :
  forall (fuel i_ahead : nat),
    (i < i_ahead <= i_max)%nat -> (i_max - i_ahead <= fuel)%nat ->
    (forall j, (i <= j < i_ahead)%nat -> x.[j] = x.[i]) ->
    (i_ahead <= Signal.look_ahead fuel x i i_ahead i_max <= i_max)%nat
    /\ (forall j, (i <= j < Signal.look_ahead fuel x i i_ahead i_max)%nat ->
          x.[j] = x.[i])
    /\ (Signal.look_ahead fuel x i i_ahead i_max = i_max
        \/ x.[Signal.look_ahead fuel x i i_ahead i_max] <> x.[i]).
Proof.
  induction fuel as [|fuel IH]; intros i_ahead Hi Hfuel Heq.
  - simpl. assert (i_ahead = i_max) as -> by lia.
    split; [lia|]. split; [exact Heq | left; reflexivity].
  - simpl. destruct (Nat.ltb_spec i_ahead i_max) as [Hlt|Hge]; simpl.
    + unfold Reqb. destruct (Req_dec_T x.[i_ahead] x.[i]) as [He|Hne].
      * destruct (IH (S i_ahead)) as (Hr & Hall & Hstop); try lia.
        { intros j Hj. destruct (Nat.eq_dec j i_ahead) as [->|Hn];
            [exact He | apply Heq; lia]. }
        split; [lia|]. split; assumption.
      * split; [lia|]. split; [exact Heq | right; exact Hne].
    + assert (i_ahead = i_max) as -> by lia.
      split; [lia|]. split; [exact Heq | left; reflexivity].
Qed.

Lemma plateau_right_edge (x : list R) (i i_ahead r : nat) :
  (i < i_ahead)%nat ->
  (forall j, (i <= j < i_ahead)%nat -> x.[j] = x.[i]) ->
  plateau x i r ->
  (i_ahead <= r + 1)%nat.
Proof.
  intros Hi Heq (Hlr & Hlen & Hrise & Hrun & Hfall).
  destruct (le_lt_dec i_ahead (r + 1)) as [H|H]; [exact H|].
  assert (x.[r + 1] = x.[i]) by (apply Heq; lia). lra.
Qed.

Lemma no_plateau_inside (x : list R) (i i_ahead l r : nat) :
  (forall j, (i <= j < i_ahead)%nat -> x.[j] = x.[i]) ->
  x.[i_ahead] < x.[i] ->
  (i < l <= i_ahead)%nat -> ~ plateau x l r.
Proof.
  intros Heq Hfall Hl (Hlr & Hlen & Hrise & Hrun & Hfall').
  assert (E1 : x.[l - 1] = x.[i]) by (apply Heq; lia).
  destruct (Nat.eq_dec l i_ahead) as [->|Hne].
  - lra.
  - assert (E2 : x.[l] = x.[i]) by (apply Heq; lia). lra.
Qed.

Lemma local_maxima_loop_spec (x : list R) (i_max : nat) :
  i_max = (length x - 1)%nat ->
  forall (fuel i : nat), (1 <= i)%nat -> (i_max - i <= fuel)%nat ->
    forall p : nat,
      In p (Signal.local_maxima_loop fuel x i i_max)
      <-> exists l r, plateau x l r /\ (i <= l)%nat /\ p = Signal.midpoint l r.
Proof.
  intros Himax.
  assert (Hdone : forall i p, (i_max <= i)%nat ->
            ~ exists l r, plateau x l r /\ (i <= l)%nat /\ p = Signal.midpoint l r).
  { intros i p Hi (l & r & (Hlr & Hlen & _) & Hl & _). lia. }
  induction fuel as [|fuel IH]; intros i Hi Hfuel p.
  - simpl. split; [contradiction|]. intros H. exfalso.
    apply (Hdone i p); [lia | exact H].
  - cbn [Signal.local_maxima_loop].
    destruct (Nat.ltb_spec i i_max) as [Hlt|Hge].
    2:{ split; [contradiction|]. intros H. exfalso.
        apply (Hdone i p); [lia | exact H]. }
    unfold Rltb at 1.
    destruct (Rlt_dec x.[i - 1] x.[i]) as [Hrise|Hflat].
    + destruct (look_ahead_spec x i i_max (i_max - i) (S i)) as (Hr & Hall & Hstop);
        try lia.
      { intros j Hj. assert (j = i) as -> by lia. reflexivity. }
      set (i_ahead := Signal.look_ahead (i_max - i) x i (S i) i_max) in *.
      unfold Rltb. destruct (Rlt_dec x.[i_ahead] x.[i]) as [Hfall|Hnofall].
      * cbn [In]. rewrite IH by lia. split.
        -- intros [<-|(l & r & Hp & Hl & ->)].
           ++ exists i, (i_ahead - 1)%nat. split; [|split; [lia | reflexivity]].
              unfold plateau. replace (i_ahead - 1 + 1)%nat with i_ahead by lia.
              repeat split; try lia; try assumption.
              intros j Hj. apply Hall. lia.
           ++ exists l, r. split; [exact Hp|]. split; [lia | reflexivity].
        -- intros (l & r & Hp & Hl & ->).
           destruct (le_lt_dec l i) as [Hli|Hli].
           ++ assert (l = i) as -> by lia. left.
              pose proof (plateau_right_edge x i i_ahead r ltac:(lia) Hall Hp) as Hedge.
              destruct Hp as (Hlr & Hlen & _ & Hrun & Hfall').
              assert (r + 1 = i_ahead)%nat as <-.
              { destruct (Nat.eq_dec (r + 1) i_ahead) as [E|E]; [exact E|].
                exfalso.
                assert (Hin : x.[i_ahead] = x.[i]) by (apply Hrun; lia). lra. }
              f_equal. lia.
           ++ right. exists l, r. split; [exact Hp|]. split; [|reflexivity].
              destruct (le_lt_dec l i_ahead) as [Hin|Hout]; [|lia].
              exfalso. apply (no_plateau_inside x i i_ahead l r Hall Hfall); [lia|].
              exact Hp.
      * rewrite IH by lia. split.
        -- intros (l & r & Hp & Hl & ->). exists l, r.
           split; [exact Hp|]. split; [lia | reflexivity].
        -- intros (l & r & Hp & Hl & ->). exists l, r.
           split; [exact Hp|]. split; [|reflexivity].
           destruct (le_lt_dec l i) as [Hli|Hli]; [|lia]. exfalso.
           assert (l = i) as -> by lia.
           pose proof (plateau_right_edge x i i_ahead r ltac:(lia) Hall Hp) as Hedge.
           destruct Hp as (Hlr & Hlen & _ & Hrun & Hfall').
           destruct (Nat.eq_dec (r + 1) i_ahead) as [E|E].
           ++ rewrite E in Hfall'. contradiction.
           ++ assert (Hin : x.[i_ahead] = x.[i]) by (apply Hrun; lia).
              destruct Hstop as [Hs|Hs]; [lia | contradiction].
    + rewrite IH by lia. split.
      * intros (l & r & Hp & Hl & ->). exists l, r.
        split; [exact Hp|]. split; [lia | reflexivity].
      * intros (l & r & Hp & Hl & ->). exists l, r.
        split; [exact Hp|]. split; [|reflexivity].
        destruct (le_lt_dec l i) as [Hli|Hli]; [|lia]. exfalso.
        assert (l = i) as -> by lia.
        destruct Hp as (_ & _ & Hrise & _). contradiction.
Qed.

Lemma local_maxima_1d_spec (x : list R) (p : nat) :
  In p (Signal.local_maxima_1d x)
  <-> exists l r, plateau x l r /\ p = Signal.midpoint l r.
Proof.
  unfold Signal.local_maxima_1d.
  rewrite (local_maxima_loop_spec x (length x - 1) eq_refl) by lia.
  split.
  - intros (l & r & Hp & _ & E). exists l, r. split; assumption.
  - intros (l & r & Hp & E). exists l, r. split; [exact Hp|].
    split; [|exact E]. destruct Hp as (Hlr & _). lia.
Qed.

(** One turn of the two loops on a series of known samples. *)
Ltac loop_step :=
  cbn [Signal.local_maxima_loop Signal.look_ahead Nat.ltb Nat.leb Nat.sub
       andb Signal.at_ nth length];
  rcompare; cbn [andb].

Example local_maxima_flat_top :
  Signal.local_maxima_1d [0; 1; 1; 0] = [1%nat].
Proof.
  unfold Signal.local_maxima_1d. repeat loop_step. reflexivity.
Qed.

Example local_maxima_two_peaks :
  Signal.local_maxima_1d [0; 2; 0; 3; 1] = [1%nat; 3%nat].
Proof.
  unfold Signal.local_maxima_1d. repeat loop_step. reflexivity.
Qed.

(** A rise that ends on the last sample is no maximum. *)
Example local_maxima_rising_edge :
  Signal.local_maxima_1d [0; 1; 2; 2] = [].
Proof.
  unfold Signal.local_maxima_1d. repeat loop_step. reflexivity.
Qed.

Lemma midpoint_bounds (l r : nat) :
  (l <= r)%nat -> (l <= Signal.midpoint l r <= r)%nat.
Proof.
  intros H. unfold Signal.midpoint. split.
  - apply Nat.div_le_lower_bound; lia.
  - apply Nat.Div0.div_le_upper_bound; lia.
Qed.

Lemma plateau_interior (x : list R) (l r : nat) :
  plateau x l r -> (0 < Signal.midpoint l r < length x - 1)%nat.
Proof.
  intros (Hlr & Hlen & _).
  pose proof (midpoint_bounds l r ltac:(lia)). lia.
Qed.

Lemma look_ahead_ge (x : list R) (i i_max : nat) :
  forall fuel i_ahead,
    (i_ahead <= Signal.look_ahead fuel x i i_ahead i_max)%nat.
Proof.
  induction fuel as [|fuel IH]; intros i_ahead; simpl; [lia|].
  destruct ((i_ahead <? i_max)%nat && Reqb x.[i_ahead] x.[i]); [|lia].
  specialize (IH (S i_ahead)). lia.
Qed.

Lemma local_maxima_loop_ge (x : list R) (i_max : nat) :
  forall fuel i p,
    In p (Signal.local_maxima_loop fuel x i i_max) -> (i <= p)%nat.
Proof.
  induction fuel as [|fuel IH]; intros i p; cbn [Signal.local_maxima_loop];
    [contradiction|].
  destruct (i <? i_max)%nat; [|contradiction].
  pose proof (look_ahead_ge x i i_max (i_max - i) (S i)) as Hge.
  destruct (Rltb x.[i - 1] x.[i]).
  - destruct (Rltb _ _).
    + cbn [In]. intros [<-|H].
      * apply midpoint_bounds. lia.
      * apply IH in H. lia.
    + intros H. apply IH in H. lia.
  - intros H. apply IH in H. lia.
Qed.


Lemma reaches_finite (t v : R) : reaches (Fin t) v <-> t <= v.
Proof. unfold reaches. simpl. apply Rleb_spec. Qed.

Lemma find_peaks_spec (x : list R) (height : float) (p : nat) :
  In p (Signal.find_peaks x height)
  <-> (exists l r, plateau x l r /\ p = Signal.midpoint l r)
      /\ reaches height x.[p].
Proof.
  unfold Signal.find_peaks. rewrite filter_In, local_maxima_1d_spec.
  reflexivity.
Qed.



Lemma strict_peak_plateau (x : list R) (p : nat) :
  (0 < p)%nat -> (p + 1 < length x)%nat ->
  x.[p - 1] < x.[p] -> x.[p + 1] < x.[p] -> plateau x p p.
Proof.
  intros H0 Hn Hl Hr. unfold plateau.
  repeat split; try lia; try assumption.
  intros j Hj. assert (j = p) as -> by lia. reflexivity.
Qed.




Lemma height_defined (df : DataFrame) :
  (2 <= length df)%nat ->
  App.height df
  = Fin (Series.mean_of (column gFTotal df)
         + 0.5 * sqrt (Series.var_of 1 (column gFTotal df))).
Proof.
  intros H. unfold App.height.
  rewrite std_defined by (unfold column; rewrite length_map; exact H).
  unfold Series.mean. destruct df as [|s df]; [simpl in H; lia|]. reflexivity.
Qed.

Lemma sqrt_le_bound (v b : R) : 0 <= b -> v <= b * b -> sqrt v <= b.
Proof.
  intros Hb Hv. rewrite <- (sqrt_square b Hb). apply sqrt_le_1_alt. exact Hv.
Qed.

Ltac series_eval :=
  unfold Series.var_of, Series.ssqdm, Series.mean_of, Series.sum; simpl.





Lemma peaks_spec (df : DataFrame) (p : nat) :
  In p (App.peaks df)
  <-> (exists l r, plateau (column gFTotal df) l r /\ p = Signal.midpoint l r)
      /\ reaches (App.height df) (column gFTotal df).[p].
Proof. apply find_peaks_spec. Qed.



Lemma pulse_reaches : reaches (App.height pulse) (column gFTotal pulse).[1].
Proof.
  rewrite height_defined by (simpl; lia). apply reaches_finite.
  assert (Hs : sqrt (Series.var_of 1 (column gFTotal pulse)) <= 3).
  { apply sqrt_le_bound; [lra|]. series_eval. lra. }
  assert (Hm : Series.mean_of (column gFTotal pulse) <= 2).
  { series_eval. lra. }
  unfold Signal.at_. simpl nth. lra.
Qed.


(** * Further properties of the two scripts *)

(** ** Mixing time *)

Lemma fold_max_ge (l : list R) (v : R) : v <= fold_left Rmax l v.
Proof.
  revert v. induction l as [|h t IH]; intros v; simpl; [lra|].
  apply Rle_trans with (Rmax v h); [apply Rmax_l | apply IH].
Qed.

Lemma fold_max_bound (l : list R) (v u : R) :
  In u l -> u <= fold_left Rmax l v.
Proof.
  revert v. induction l as [|h t IH]; intros v H; simpl; [contradiction|].
  destruct H as [->|H]; [|apply IH; exact H].
  apply Rle_trans with (Rmax v u); [apply Rmax_r | apply fold_max_ge].
Qed.

Lemma fold_max_in (l : list R) (v : R) :
  fold_left Rmax l v = v \/ In (fold_left Rmax l v) l.
Proof.
  revert v. induction l as [|h t IH]; intros v; simpl; [left; reflexivity|].
  destruct (IH (Rmax v h)) as [E|H]; [|right; right; exact H].
  rewrite E. unfold Rmax. destruct (Rle_dec v h); [right; left | left]; reflexivity.
Qed.

Lemma max_spec (s : list R) :
  s <> [] ->
  exists m, Series.max s = Fin m /\ In m s /\ forall t, In t s -> t <= m.
Proof.
  destruct s as [|v rest]; [contradiction|]. intros _.
  exists (fold_left Rmax rest v). split; [reflexivity|]. split.
  - destruct (fold_max_in rest v) as [E|H]; [left; symmetry; exact E | right; exact H].
  - intros t [<-|H]; [apply fold_max_ge | apply fold_max_bound; exact H].
Qed.

Lemma app_recommendation_finite (m : R) :
  (m < 8 -> App.recommendation (Fin m) = TooShort)
  /\ (15 < m -> App.recommendation (Fin m) = TooLong)
  /\ (8 <= m <= 15 -> App.recommendation (Fin m) = OptimalTime).
Proof.
  unfold App.recommendation, fgtb. simpl. repeat split; intros H; rcompare; reflexivity.
Qed.

Lemma simple_recommendation_finite (m : R) :
  (m < 8 -> Simple.recommendation (Fin m) = TooShort)
  /\ (15 < m -> Simple.recommendation (Fin m) = TooLong)
  /\ (8 <= m <= 15 -> Simple.recommendation (Fin m) = OptimalTime).
Proof.
  unfold Simple.recommendation. simpl. repeat split; intros H; rcompare; reflexivity.
Qed.

(** X1: a finite total time of [t] seconds is judged too short below 480
    seconds, too long above 900 seconds and optimal in between, both ends
    included, by both scripts. *)
Theorem duration_thresholds (a : Analysis) (t : R) :
  total_time a = Fin t ->
  (t < 480 ->
     App.recommendation (App.total_minutes a) = TooShort
     /\ Simple.recommendation (Simple.total_minutes a) = TooShort)
  /\ (900 < t ->
     App.recommendation (App.total_minutes a) = TooLong
     /\ Simple.recommendation (Simple.total_minutes a) = TooLong)
  /\ (480 <= t <= 900 ->
     App.recommendation (App.total_minutes a) = OptimalTime
     /\ Simple.recommendation (Simple.total_minutes a) = OptimalTime).
Proof.
  intros Ht. unfold App.total_minutes, Simple.total_minutes. rewrite Ht.
  simpl. rcompare.
  destruct (app_recommendation_finite (t / 60)) as (A1 & A2 & A3).
  destruct (simple_recommendation_finite (t / 60)) as (S1 & S2 & S3).
  repeat split; first [apply A1 | apply A2 | apply A3 | apply S1 | apply S2 | apply S3]; lra.
Qed.

Lemma duration_thresholds_witness :
  App.recommendation (App.total_minutes bench_result) = TooShort
  /\ Simple.recommendation (Simple.total_minutes bench_result) = TooShort.
Proof.
  destruct (max_spec (column time bench) ltac:(discriminate)) as (m & Hm & Hin & _).
  apply (proj1 (duration_thresholds bench_result m Hm)).
  simpl in Hin. destruct Hin as [H|[H|[H|[H|[]]]]]; lra.
Defined.

Lemma recommendations_agree_on_numbers :
  (forall tm : float, tm <> NaN ->
     Simple.recommendation tm = App.recommendation tm).
Proof.
  intros [m| | |] H; try reflexivity; [|contradiction].
  destruct (app_recommendation_finite m) as (A1 & A2 & A3).
  destruct (simple_recommendation_finite m) as (S1 & S2 & S3).
  destruct (Rlt_dec m 8) as [H1|H1]; [rewrite A1, S1 by exact H1; reflexivity|].
  destruct (Rlt_dec 15 m) as [H2|H2]; [rewrite A2, S2 by exact H2; reflexivity|].
  rewrite A3, S3 by lra. reflexivity.
Qed.

(** X2: the two scripts test the mixing time in a different order; they
    agree on every value that is a number, and differ on NaN, which the
    dashboard calls optimal and the console script too long. *)
Theorem recommendations_agree :
  (forall tm : float, tm <> NaN ->
     Simple.recommendation tm = App.recommendation tm)
  /\ App.recommendation NaN = OptimalTime
  /\ Simple.recommendation NaN = TooLong.
Proof.
  split; [exact recommendations_agree_on_numbers | split; reflexivity].
Qed.

Lemma recommendations_agree_witness :
  Simple.recommendation (Fin 12) = App.recommendation (Fin 12).
Proof. apply (proj1 recommendations_agree). discriminate. Defined.

(** ** When the analysis fails, and when it succeeds *)

Section Outcome.

Variable welch : welch_t.

Lemma analyze_rate_fails (df : DataFrame) (e : exn) :
  App.infer_rate df = Raise e ->
  App.analyze_gluten_development welch df = Raise e.
Proof.
  intros H. unfold App.analyze_gluten_development. rewrite H. reflexivity.
Qed.

Lemma simple_fails (df : DataFrame) (e : exn) :
  App.analyze_gluten_development welch df = Raise e ->
  Simple.analyze_gluten_development welch df = Raise e.
Proof. intros H. rewrite simple_analyze, H. reflexivity. Qed.

Lemma analyze_after_welch (df : DataFrame) (rate : float)
  (fs ps : list float) :
  App.infer_rate df = Ok rate ->
  welch (column gFTotal df) rate 1024%nat = Ok (fs, ps) ->
  App.analyze_gluten_development welch df
  = (w <- App.window_size rate ;;
     roll <- Series.rolling_std (column gFTotal df) w ;;
     k <- Np.argmax ps ;;
     dom <- Np.getitem fs k ;;
     Ok {| total_time := Series.max (column time df);
           mean_gforce := Series.mean (column gFTotal df);
           std_gforce := Series.std (column gFTotal df);
           num_peaks := length (App.peaks df);
           sampling_rate := rate;
           dominant_freq := dom;
           rolling_std := roll |}).
Proof.
  intros Hr Hw. unfold App.analyze_gluten_development.
  rewrite Hr. cbn [bind]. rewrite Hw. reflexivity.
Qed.

Lemma analyze_welch_fails (df : DataFrame) (rate : float) (e : exn) :
  App.infer_rate df = Ok rate ->
  welch (column gFTotal df) rate 1024%nat = Raise e ->
  App.analyze_gluten_development welch df = Raise e.
Proof.
  intros Hr Hw. unfold App.analyze_gluten_development.
  rewrite Hr. cbn [bind]. rewrite Hw. reflexivity.
Qed.

End Outcome.

Lemma infer_rate_stalled (df : DataFrame) (t0 : R) (rest : list R) :
  column time df = t0 :: t0 :: rest -> App.infer_rate df = Ok PInf.
Proof.
  intros H. rewrite (infer_rate_two df t0 t0 rest H). simpl. unfold signed_inf.
  rcompare. reflexivity.
Qed.

Lemma window_size_inf : App.window_size PInf = Raise OverflowError.
Proof. unfold App.window_size. simpl. unfold signed_inf. rcompare. reflexivity. Qed.

(** X3: a recording of fewer than two samples cannot be analysed: both
    scripts raise the index error of [iloc[1]], whatever the spectrum
    estimate would do. *)
Theorem analyze_short_recording (welch : welch_t) (df : DataFrame) :
  (length df < 2)%nat ->
  App.analyze_gluten_development welch df = Raise IndexError
  /\ Simple.analyze_gluten_development welch df = Raise IndexError.
Proof.
  intros H.
  assert (E : App.analyze_gluten_development welch df = Raise IndexError)
    by (apply analyze_rate_fails, infer_rate_short; exact H).
  split; [exact E | apply simple_fails; exact E].
Qed.

Lemma analyze_short_recording_witness :
  App.analyze_gluten_development bench_welch (recording [(0, 1)])
  = Raise IndexError
  /\ Simple.analyze_gluten_development bench_welch [] = Raise IndexError.
Proof.
  split.
  - apply (analyze_short_recording bench_welch (recording [(0, 1)])). simpl. lia.
  - apply (analyze_short_recording bench_welch []). simpl. lia.
Defined.

(** X4: when the first two timestamps are equal the analysis never
    returns: the spectrum estimate is called with an infinite sampling
    rate, and if it returns, the window size [int(inf)] raises an overflow
    error; if it raises, that error comes out.  Both scripts alike. *)
Theorem analyze_stalled_clock (welch : welch_t) (df : DataFrame)
  (t0 : R) (rest : list R) :
  column time df = t0 :: t0 :: rest ->
  (forall sp, welch (column gFTotal df) PInf 1024%nat = Ok sp ->
     App.analyze_gluten_development welch df = Raise OverflowError
     /\ Simple.analyze_gluten_development welch df = Raise OverflowError)
  /\ (forall e, welch (column gFTotal df) PInf 1024%nat = Raise e ->
     App.analyze_gluten_development welch df = Raise e
     /\ Simple.analyze_gluten_development welch df = Raise e).
Proof.
  intros H. pose proof (infer_rate_stalled df t0 rest H) as Hr. split.
  - intros [fs ps] Hw.
    assert (E : App.analyze_gluten_development welch df = Raise OverflowError).
    { rewrite (analyze_after_welch welch df PInf fs ps Hr Hw).
      rewrite window_size_inf. reflexivity. }
    split; [exact E | apply simple_fails; exact E].
  - intros e Hw.
    assert (E : App.analyze_gluten_development welch df = Raise e)
      by (apply (analyze_welch_fails welch df PInf e Hr Hw)).
    split; [exact E | apply simple_fails; exact E].
Qed.

Lemma analyze_stalled_clock_witness :
  App.analyze_gluten_development bench_welch stalled_clock = Raise OverflowError
  /\ Simple.analyze_gluten_development bench_welch stalled_clock
     = Raise OverflowError.
Proof.
  apply (proj1 (analyze_stalled_clock bench_welch stalled_clock 1 [] eq_refl)
           ([Fin 0; Fin 0.5; Fin 1], [Fin 1; Fin 3; Fin 3])).
  reflexivity.
Defined.

Lemma trunc_le_minus_one (r : R) : r <= -1 -> (trunc r <= -1)%Z.
Proof.
  intros H. pose proof (trunc_neg r ltac:(lra)) as [Hlo _].
  apply Z.lt_succ_r. apply lt_IZR.
  replace (IZR (Z.succ (-1))) with 0 by (simpl; lra). lra.
Qed.

(** X5: timestamps that run backwards by at most ten seconds give a
    negative window size, which pandas rejects: once the spectrum estimate
    has returned, both scripts raise a value error. *)
Theorem analyze_backwards_clock (welch : welch_t) (df : DataFrame)
  (t0 t1 : R) (rest : list R) (sp : list float * list float) :
  column time df = t0 :: t1 :: rest ->
  t1 < t0 -> t0 - t1 <= 10 ->
  welch (column gFTotal df) (Fin (1 / (t1 - t0))) 1024%nat = Ok sp ->
  App.analyze_gluten_development welch df = Raise ValueError
  /\ Simple.analyze_gluten_development welch df = Raise ValueError.
Proof.
  intros H Hlt Hgap Hw. destruct sp as [fs ps].
  assert (Hr : App.infer_rate df = Ok (Fin (1 / (t1 - t0)))).
  { rewrite (infer_rate_two df t0 t1 rest H). simpl. rcompare. reflexivity. }
  assert (E : App.analyze_gluten_development welch df = Raise ValueError).
  { rewrite (analyze_after_welch welch df _ fs ps Hr Hw).
    unfold App.window_size. simpl. 
    rewrite rolling_std_negative; [reflexivity|].
    assert (Hq : 1 / (t1 - t0) * 10 <= -1).
    { assert (Hd : t1 - t0 < 0) by lra.
      replace (1 / (t1 - t0) * 10) with (- (10 / (t0 - t1))) by (field; lra).
      assert (1 <= 10 / (t0 - t1)); [|lra].
      apply (Rmult_le_reg_r (t0 - t1)); [lra|].
      replace (10 / (t0 - t1) * (t0 - t1)) with 10 by (field; lra). lra. }
    pose proof (trunc_le_minus_one _ Hq). lia. }
  split; [exact E | apply simple_fails; exact E].
Qed.

Lemma analyze_backwards_clock_witness :
  App.analyze_gluten_development bench_welch
    (recording [(0.5, 1); (0.4, 1.2); (0.3, 1)]) = Raise ValueError.
Proof.
  apply (analyze_backwards_clock bench_welch
           (recording [(0.5, 1); (0.4, 1.2); (0.3, 1)]) 0.5 0.4 [0.3]
           ([Fin 0; Fin 0.5; Fin 1], [Fin 1; Fin 3; Fin 3]) eq_refl);
    [lra | lra | reflexivity].
Defined.

Lemma argmax_loop_lt (l : list float) :
  forall (mp : float) (best i : nat),
    (best < i)%nat -> (Np.argmax_loop mp best i l < i + length l)%nat.
Proof.
  induction l as [|v rest IH]; intros mp best i H; simpl; [lia|].
  destruct (negb (fleb v mp)).
  - destruct (isnan v); [lia|].
    specialize (IH v i (S i) ltac:(lia)). lia.
  - specialize (IH mp best (S i) ltac:(lia)). lia.
Qed.

Lemma argmax_defined (l : list float) :
  l <> [] -> exists k, Np.argmax l = Ok k /\ (k < length l)%nat.
Proof.
  destruct l as [|v rest]; [contradiction|]. intros _. eexists.
  split; [reflexivity|]. destruct (isnan v); simpl; [lia|].
  pose proof (argmax_loop_lt rest v 0%nat 1%nat ltac:(lia)). lia.
Qed.

Lemma getitem_defined (a : list float) (k : nat) :
  (k < length a)%nat -> exists v, Np.getitem a k = Ok v.
Proof.
  intros H. unfold Np.getitem.
  destruct (nth_error a k) as [v|] eqn:E; [exists v; reflexivity|].
  apply nth_error_None in E. lia.
Qed.

Lemma infer_rate_increasing (df : DataFrame) (t0 t1 : R) (rest : list R) :
  column time df = t0 :: t1 :: rest -> t0 < t1 ->
  App.infer_rate df = Ok (Fin (1 / (t1 - t0))).
Proof.
  intros H Hlt. rewrite (infer_rate_two df t0 t1 rest H). simpl. rcompare.
  reflexivity.
Qed.

Lemma window_size_increasing (t0 t1 : R) :
  t0 < t1 ->
  exists w : Z,
    App.window_size (Fin (1 / (t1 - t0))) = Ok w
    /\ (0 <= w)%Z
    /\ IZR w * (t1 - t0) <= 10 < (IZR w + 1) * (t1 - t0).
Proof.
  intros Hlt. exists (trunc (1 / (t1 - t0) * 10)). split; [reflexivity|].
  assert (Hq : 1 / (t1 - t0) * 10 = 10 / (t1 - t0)) by (field; lra).
  assert (Hpos : 0 < 10 / (t1 - t0)) by (apply Rdiv_lt_0_compat; lra).
  pose proof (trunc_nonneg (1 / (t1 - t0) * 10) ltac:(lra)) as [Hlo Hhi].
  rewrite Hq in Hlo, Hhi. rewrite Hq.
  remember (trunc (10 / (t1 - t0))) as w eqn:Ew. clear Ew.
  remember (10 / (t1 - t0)) as q eqn:Eq.
  assert (Hten : q * (t1 - t0) = 10) by (rewrite Eq; field; lra).
  split; [|split].
  - apply Z.lt_succ_r. apply lt_IZR. rewrite succ_IZR. lra.
  - rewrite <- Hten. apply Rmult_le_compat_r; lra.
  - rewrite <- Hten. apply Rmult_lt_compat_r; lra.
Qed.

Lemma rounds_at_pos (u : R) (rnd : R -> R) (x : R) :
  0 < x -> rounds_at u rnd x -> x * (1 - u) <= rnd x <= x * (1 + u).
Proof.
  unfold rounds_at. intros Hx H. rewrite (Rabs_pos_eq x) in H by lra.
  unfold Rabs in H. destruct (Rcase_abs (rnd x - x)); lra.
Qed.

Lemma rounded_window_bounds (rnd : R -> R) (u t0 t1 : R) :
  t0 < t1 -> 0 <= u <= 1 / 8 ->
  rounds_at u rnd (t1 - t0) ->
  rounds_at u rnd (1 / rnd (t1 - t0)) ->
  rounds_at u rnd (rnd (1 / rnd (t1 - t0)) * 10) ->
  (0 <= rounded_window_size rnd t0 t1)%Z
  /\ IZR (rounded_window_size rnd t0 t1) * (t1 - t0) * (1 - u)
     <= 10 * ((1 + u) * (1 + u))
  /\ 10 * ((1 - u) * (1 - u))
     < (IZR (rounded_window_size rnd t0 t1) + 1) * (t1 - t0) * (1 + u).
Proof.
  intros Hlt Hu H0 H1 H2. unfold rounded_window_size.
  set (d := t1 - t0) in *. assert (Hd : 0 < d) by (unfold d; lra).
  apply (rounds_at_pos u rnd d Hd) in H0.
  set (d' := rnd d) in *.
  assert (Hd' : 0 < d').
  { assert (0 < d * (1 - u)) by (apply Rmult_lt_0_compat; lra). lra. }
  assert (Hq : 0 < 1 / d') by (apply Rdiv_lt_0_compat; lra).
  apply (rounds_at_pos u rnd _ Hq) in H1.
  set (q := 1 / d') in *.
  assert (Hqd : q * d' = 1) by (unfold q; field; lra).
  set (r := rnd q) in *.
  assert (Hr : 0 < r).
  { assert (0 < q * (1 - u)) by (apply Rmult_lt_0_compat; lra). lra. }
  assert (Hr10 : 0 < r * 10) by lra.
  apply (rounds_at_pos u rnd _ Hr10) in H2.
  set (p := rnd (r * 10)) in *.
  assert (Hp : 0 < p).
  { assert (0 < r * 10 * (1 - u)) by (apply Rmult_lt_0_compat; lra). lra. }
  pose proof (trunc_nonneg p ltac:(lra)) as [Hlo Hhi].
  set (W := IZR (trunc p)) in *.
  (* q * d is within [1/(1+u), 1/(1-u)] *)
  assert (Hqd1 : q * d * (1 - u) <= 1).
  { assert (q * (d * (1 - u)) <= q * d')
      by (apply Rmult_le_compat_l; lra). lra. }
  assert (Hqd2 : 1 <= q * d * (1 + u)).
  { assert (q * d' <= q * (d * (1 + u)))
      by (apply Rmult_le_compat_l; lra). lra. }
  split; [|split].
  - apply Z.lt_succ_r. apply lt_IZR. rewrite succ_IZR. fold W. lra.
  - (* W d (1-u) <= p d (1-u) <= 10 r (1+u) d (1-u) <= 10 q (1+u)^2 d (1-u) *)
    assert (S1 : W * (d * (1 - u)) <= p * (d * (1 - u))).
    { apply Rmult_le_compat_r; [|lra].
      apply Rmult_le_pos; lra. }
    assert (S2 : p * (d * (1 - u)) <= r * 10 * (1 + u) * (d * (1 - u))).
    { apply Rmult_le_compat_r; [|lra]. apply Rmult_le_pos; lra. }
    assert (S3 : r * (10 * (1 + u) * (d * (1 - u)))
                 <= q * (1 + u) * (10 * (1 + u) * (d * (1 - u)))).
    { apply Rmult_le_compat_r; [|lra].
      repeat apply Rmult_le_pos; lra. }
    assert (S4 : (q * d * (1 - u)) * (10 * ((1 + u) * (1 + u)))
                 <= 1 * (10 * ((1 + u) * (1 + u)))).
    { apply Rmult_le_compat_r; [|lra].
      repeat apply Rmult_le_pos; lra. }
    lra.
  - assert (S1 : p * (d * (1 + u)) < (W + 1) * (d * (1 + u))).
    { apply Rmult_lt_compat_r; [|lra]. apply Rmult_lt_0_compat; lra. }
    assert (S2 : r * 10 * (1 - u) * (d * (1 + u)) <= p * (d * (1 + u))).
    { apply Rmult_le_compat_r; [|lra]. apply Rmult_le_pos; lra. }
    assert (S3 : q * (1 - u) * (10 * (1 - u) * (d * (1 + u)))
                 <= r * (10 * (1 - u) * (d * (1 + u)))).
    { apply Rmult_le_compat_r; [|lra].
      repeat apply Rmult_le_pos; lra. }
    assert (S4 : 1 * (10 * ((1 - u) * (1 - u)))
                 <= (q * d * (1 + u)) * (10 * ((1 - u) * (1 - u)))).
    { apply Rmult_le_compat_r; [|lra].
      repeat apply Rmult_le_pos; lra. }
    lra.
Qed.

Lemma window_slack (W d u : R) :
  0 < d -> 0 <= u <= 1 / 8 -> 40 * u <= d ->
  W * d * (1 - u) <= 10 * ((1 + u) * (1 + u)) ->
  10 * ((1 - u) * (1 - u)) < (W + 1) * d * (1 + u) ->
  (W - 1) * d < 10 < (W + 2) * d.
Proof.
  intros Hd Hu Hdu HA HB.
  assert (Huu : 0 <= u * u <= u / 8).
  { split; [apply Rmult_le_pos; lra|].
    assert (u * u <= u * (1 / 8)) by (apply Rmult_le_compat_l; lra). lra. }
  assert (Hdu' : 0 <= d * u <= d / 8).
  { split; [apply Rmult_le_pos; lra|].
    assert (d * u <= d * (1 / 8)) by (apply Rmult_le_compat_l; lra). lra. }
  split.
  - (* W d (1-u) <= 10 (1+u)^2 < (10 + d) (1 - u) *)
    assert (H1 : W * d * (1 - u) < (10 + d) * (1 - u)) by lra.
    assert (H2 : W * d < 10 + d).
    { apply (Rmult_lt_reg_r (1 - u)); lra. }
    lra.
  - assert (H1 : (10 - d) * (1 + u) < (W + 1) * d * (1 + u)) by lra.
    assert (H2 : 10 - d < (W + 1) * d).
    { apply (Rmult_lt_reg_r (1 + u)); lra. }
    lra.
Qed.

Lemma exact_window (df : DataFrame) (t0 t1 : R) (rest : list R) :
  column time df = t0 :: t1 :: rest -> t0 < t1 ->
  (rate <- App.infer_rate df ;; App.window_size rate)
  = Ok (rounded_window_size (fun x => x) t0 t1).
Proof.
  intros H Hlt. rewrite (infer_rate_increasing df t0 t1 rest H Hlt).
  reflexivity.
Qed.

(** X6: the ten-second window under rounding.  When the first two
    timestamps increase and the subtraction, the division and the
    product each carry a relative error of at most [u <= 1/8], the window
    size [w] is not negative and [w] sampling intervals fit into ten
    seconds, while [w + 1] do not, up to three roundings:
    [w * dt * (1 - u) <= 10 * (1 + u)^2] and
    [10 * (1 - u)^2 < (w + 1) * dt * (1 + u)].  When moreover
    [40 * u <= dt], as in binary64 for every interval above 5e-15 s,
    [(w - 1) * dt < 10 < (w + 2) * dt].  The exact arithmetic of
    [App.window_size] and [Simple.window_size] is the instance in which
    nothing is rounded. *)
Theorem window_spans_ten_seconds (rnd : R -> R) (u t0 t1 : R) :
  t0 < t1 -> 0 <= u <= 1 / 8 ->
  rounds_at u rnd (t1 - t0) ->
  rounds_at u rnd (1 / rnd (t1 - t0)) ->
  rounds_at u rnd (rnd (1 / rnd (t1 - t0)) * 10) ->
  (0 <= rounded_window_size rnd t0 t1)%Z
  /\ IZR (rounded_window_size rnd t0 t1) * (t1 - t0) * (1 - u)
     <= 10 * ((1 + u) * (1 + u))
  /\ 10 * ((1 - u) * (1 - u))
     < (IZR (rounded_window_size rnd t0 t1) + 1) * (t1 - t0) * (1 + u)
  /\ (40 * u <= t1 - t0 ->
      (IZR (rounded_window_size rnd t0 t1) - 1) * (t1 - t0) < 10
      < (IZR (rounded_window_size rnd t0 t1) + 2) * (t1 - t0))
  /\ (forall (df : DataFrame) (rest : list R),
         column time df = t0 :: t1 :: rest ->
         (rate <- App.infer_rate df ;; App.window_size rate)
         = Ok (rounded_window_size (fun x => x) t0 t1)
         /\ (rate <- Simple.infer_rate df ;; Simple.window_size rate)
            = Ok (rounded_window_size (fun x => x) t0 t1)).
Proof.
  intros Hlt Hu H0 H1 H2.
  destruct (rounded_window_bounds rnd u t0 t1 Hlt Hu H0 H1 H2) as (Hw & HA & HB).
  split; [exact Hw|]. split; [exact HA|]. split; [exact HB|]. split.
  - intros Hdu. apply (window_slack _ (t1 - t0) u); try assumption. lra.
  - intros df rest H.
    change (Simple.infer_rate df) with (App.infer_rate df).
    change (Simple.window_size) with (App.window_size).
    split; apply (exact_window df t0 t1 rest H Hlt).
Qed.

Lemma round2_eq (x : R) (z : Z) :
  IZR z <= x * 100 + / 2 < IZR z + 1 -> round2 x = IZR z / 100.
Proof. intros H. unfold round2. rewrite (Zfloor_eq z) by exact H. reflexivity. Qed.

Lemma round2_101 : round2 (0.101 - 0) = 0.1.
Proof. rewrite (round2_eq _ 10) by lra. lra. Qed.

Lemma round2_10 : round2 (1 / 0.1) = 10.
Proof. rewrite (round2_eq _ 1000) by lra. lra. Qed.

Lemma round2_100 : round2 (10 * 10) = 100.
Proof. rewrite (round2_eq _ 10000) by lra. lra. Qed.

Lemma rounded_window_101 : rounded_window_size round2 0 0.101 = 100%Z.
Proof.
  unfold rounded_window_size. rewrite round2_101, round2_10, round2_100.
  apply trunc_eq_floor; lra.
Qed.

Lemma exact_window_101 : rounded_window_size (fun x => x) 0 0.101 = 99%Z.
Proof.
  unfold rounded_window_size. apply trunc_eq_floor; lra.
Qed.

Lemma window_spans_ten_seconds_witness :
  rounded_window_size round2 0 0.101 = 100%Z
  /\ rounded_window_size (fun x => x) 0 0.101 = 99%Z
  /\ IZR (rounded_window_size round2 0 0.101) * (0.101 - 0) * (1 - 1 / 100)
     <= 10 * ((1 + 1 / 100) * (1 + 1 / 100))
  /\ 10 * ((1 - 1 / 100) * (1 - 1 / 100))
     < (IZR (rounded_window_size round2 0 0.101) + 1) * (0.101 - 0)
       * (1 + 1 / 100).
Proof.
  split; [exact rounded_window_101|]. split; [exact exact_window_101|].
  assert (H0 : rounds_at (1 / 100) round2 (0.101 - 0)).
  { unfold rounds_at. rewrite round2_101. unfold Rabs.
    repeat destruct (Rcase_abs _); lra. }
  assert (H1 : rounds_at (1 / 100) round2 (1 / round2 (0.101 - 0))).
  { unfold rounds_at. rewrite round2_101, round2_10. unfold Rabs.
    repeat destruct (Rcase_abs _); lra. }
  assert (H2 : rounds_at (1 / 100) round2
                 (round2 (1 / round2 (0.101 - 0)) * 10)).
  { unfold rounds_at. rewrite round2_101, round2_10, round2_100. unfold Rabs.
    repeat destruct (Rcase_abs _); lra. }
  destruct (window_spans_ten_seconds round2 (1 / 100) 0 0.101
              ltac:(lra) ltac:(lra) H0 H1 H2) as (_ & HA & HB & _).
  split; [exact HA | exact HB].
Defined.

(** X7: the analysis returns.  When the first two timestamps increase and
    the spectrum estimate returns at least one bin, with a frequency for
    every power, both scripts return a result: the sampling rate is
    [1/(t1 - t0)], the total time is the largest timestamp, the rolling
    series has one entry for every sample, and the dominant frequency is
    one of the frequency bins. *)
Theorem analyze_succeeds (welch : welch_t) (df : DataFrame)
  (t0 t1 : R) (rest : list R) (fs ps : list float) :
  column time df = t0 :: t1 :: rest -> t0 < t1 ->
  welch (column gFTotal df) (Fin (1 / (t1 - t0))) 1024%nat = Ok (fs, ps) ->
  ps <> [] -> (length ps <= length fs)%nat ->
  exists a : Analysis,
    App.analyze_gluten_development welch df = Ok a
    /\ Simple.analyze_gluten_development welch df
       = Ok {| summary := a; freqs := fs; psd := ps |}
    /\ sampling_rate a = Fin (1 / (t1 - t0))
    /\ (exists m, total_time a = Fin m /\ In m (column time df)
                  /\ forall t, In t (column time df) -> t <= m)
    /\ length (rolling_std a) = length df
    /\ In (dominant_freq a) fs.
Proof.
  intros H Hlt Hw Hne Hlen.
  pose proof (infer_rate_increasing df t0 t1 rest H Hlt) as Hr.
  destruct (window_size_increasing t0 t1 Hlt) as (w & Hws & Hw0 & _).
  destruct (argmax_defined ps Hne) as (k & Hk & Hklt).
  destruct (getitem_defined fs k ltac:(lia)) as (dom & Hdom).
  pose proof (analyze_run welch df _ fs ps w _ k dom Hr Hw Hws
                (rolling_std_ok (column gFTotal df) w Hw0) Hk Hdom) as Hrun.
  eexists. split; [exact Hrun|]. split; [|split; [reflexivity|split; [|split]]].
  - rewrite simple_analyze, Hrun, Hr. cbn [bind]. rewrite Hw. reflexivity.
  - cbn [total_time]. apply max_spec. rewrite H. discriminate.
  - cbn [rolling_std]. rewrite length_map, length_seq. unfold column.
    apply length_map.
  - cbn [dominant_freq]. unfold Np.getitem in Hdom.
    destruct (nth_error fs k) as [v|] eqn:E; [|discriminate].
    injection Hdom as <-. apply nth_error_In with k. exact E.
Qed.

Lemma analyze_succeeds_witness :
  exists a : Analysis,
    App.analyze_gluten_development bench_welch bench = Ok a
    /\ sampling_rate a = Fin (1 / (0.1 - 0))
    /\ length (rolling_std a) = 4%nat.
Proof.
  destruct (analyze_succeeds bench_welch bench 0 0.1 [0.2; 0.3]
              [Fin 0; Fin 0.5; Fin 1] [Fin 1; Fin 3; Fin 3]
              eq_refl ltac:(lra) eq_refl ltac:(discriminate) ltac:(simpl; lia))
    as (a & Ha & _ & Hr & _ & Hl & _).
  exists a. split; [exact Ha|]. split; [exact Hr | exact Hl].
Defined.

(** X8: on every recording both scripts can analyse, the total time is a
    number, so the two scripts issue the same recommendation on the mixing
    time although they test it in a different order. *)
Theorem same_recommendation (welch : welch_t) (df : DataFrame)
  (a : Analysis) (b : AnalysisSimple) :
  App.analyze_gluten_development welch df = Ok a ->
  Simple.analyze_gluten_development welch df = Ok b ->
  (exists t, total_time a = Fin t)
  /\ Simple.recommendation (Simple.total_minutes (summary b))
     = App.recommendation (App.total_minutes a).
Proof.
  intros Ha Hb. rewrite (simple_summary welch df a b Ha Hb).
  pose proof (analyze_needs_two_samples welch df a Ha) as Hn.
  apply analyze_ok in Ha.
  destruct Ha as (rate & fs & ps & w & roll & k & dom & _ & _ & _ & _ & _ & _ & ->).
  destruct (max_spec (column time df)) as (m & Hm & _).
  { destruct df; [simpl in Hn; lia | discriminate]. }
  split; [exists m; exact Hm|].
  unfold Simple.total_minutes, App.total_minutes. cbn [total_time].
  rewrite Hm. apply recommendations_agree_on_numbers.
  simpl. rcompare. discriminate.
Qed.

Lemma same_recommendation_witness :
  exists a b,
    App.analyze_gluten_development bench_welch bench = Ok a
    /\ Simple.analyze_gluten_development bench_welch bench = Ok b
    /\ Simple.recommendation (Simple.total_minutes (summary b))
       = App.recommendation (App.total_minutes a).
Proof.
  assert (Hb : Simple.analyze_gluten_development bench_welch bench
               = Ok {| summary := bench_result;
                       freqs := [Fin 0; Fin 0.5; Fin 1];
                       psd := [Fin 1; Fin 3; Fin 3] |}).
  { rewrite simple_analyze, bench_run, bench_rate. reflexivity. }
  eexists. eexists. split; [exact bench_run|]. split; [exact Hb|].
  exact (proj2 (same_recommendation bench_welch bench _ _ bench_run Hb)).
Defined.

(** ** The rolling series *)

Lemma window_std_shape (window : Z) (l : list R) :
  Series.window_std window l = NaN
  \/ exists v, Series.window_std window l = Fin v /\ 0 <= v.
Proof.
  unfold Series.window_std.
  destruct ((window <=? Z.of_nat (length l))%Z && (1 <? length l)%nat);
    [right | left; reflexivity].
  eexists. split; [reflexivity | apply sqrt_pos].
Qed.

(** X9: for every window that pandas accepts, the rolling series has one
    entry for every sample, and each entry is either missing or a finite
    number that is not negative. *)
Theorem rolling_entries (x : list R) (window : Z) :
  (0 <= window)%Z ->
  exists r : list float,
    Series.rolling_std x window = Ok r
    /\ length r = length x
    /\ forall e, In e r -> e = NaN \/ exists v, e = Fin v /\ 0 <= v.
Proof.
  intros H. eexists. split; [apply rolling_std_ok; exact H|].
  split; [rewrite length_map, length_seq; reflexivity|].
  intros e He. apply in_map_iff in He. destruct He as (i & <- & _).
  rewrite rolling_entry_unfold. apply window_std_shape.
Qed.

Lemma rolling_entries_witness :
  exists r : list float,
    Series.rolling_std [1; 2; 3] 0 = Ok r /\ length r = 3%nat.
Proof.
  destruct (rolling_entries [1; 2; 3] 0 ltac:(lia)) as (r & Hr & Hl & _).
  exists r. split; [exact Hr | exact Hl].
Defined.

Lemma window_bounds_full (n : nat) (window : Z) (i : nat) :
  (2 <= window)%Z -> (window / 2 <= Z.of_nat i)%Z ->
  (Z.of_nat i + (window - 1) / 2 < Z.of_nat n)%Z ->
  Series.window_bounds n window i
  = ((i - Z.to_nat (window / 2))%nat,
     (i - Z.to_nat (window / 2) + Z.to_nat window)%nat).
Proof.
  intros Hw Hlo Hhi. unfold Series.window_bounds, Series.clip.
  f_equal; zlia.
Qed.

Lemma slice_window (x : list R) (start len : nat) :
  Series.slice x start (start + len) = firstn len (skipn start x).
Proof.
  unfold Series.slice. replace (start + len - start)%nat with len by lia.
  reflexivity.
Qed.

(** X10: what a rolling entry is.  For a window of [w >= 2] samples, the
    entry at a position [i] with [w // 2] samples before it and
    [(w - 1) // 2] after it is the sample standard deviation, as computed
    for the whole series, of the [w] samples starting at [i - w // 2]. *)
Theorem rolling_entry_is_window_std (x : list R) (window : Z) (i : nat) :
  (2 <= window)%Z -> (window / 2 <= Z.of_nat i)%Z ->
  (Z.of_nat i + (window - 1) / 2 < Z.of_nat (length x))%Z ->
  exists r : list float,
    Series.rolling_std x window = Ok r
    /\ length (firstn (Z.to_nat window) (skipn (i - Z.to_nat (window / 2)) x))
       = Z.to_nat window
    /\ nth i r NaN
       = Series.std (firstn (Z.to_nat window)
                            (skipn (i - Z.to_nat (window / 2)) x)).
Proof.
  intros Hw Hlo Hhi. eexists. split; [apply rolling_std_ok; lia|].
  assert (Hlen : length (firstn (Z.to_nat window)
                                (skipn (i - Z.to_nat (window / 2)) x))
                 = Z.to_nat window).
  { rewrite length_firstn, length_skipn. zlia. }
  split; [exact Hlen|].
  rewrite rolling_nth by zlia. unfold rolling_entry.
  rewrite (window_bounds_full _ window i Hw Hlo Hhi), slice_window.
  unfold Series.window_std, Series.std. rewrite Hlen.
  destruct (Z.leb_spec window (Z.of_nat (Z.to_nat window))); [|lia].
  reflexivity.
Qed.

Lemma rolling_entry_is_window_std_witness :
  exists r : list float,
    Series.rolling_std [1; 2; 4; 8; 16] 3 = Ok r
    /\ nth 2 r NaN = Series.std [2; 4; 8].
Proof.
  destruct (rolling_entry_is_window_std [1; 2; 4; 8; 16] 3 2
              ltac:(lia) ltac:(zlia) ltac:(simpl length; zlia))
    as (r & Hr & _ & Hn).
  exists r. split; [exact Hr | exact Hn].
Defined.

Lemma map_all_in (f : nat -> float) (v : float) (l : list nat) :
  (forall i, In i l -> f i = v) -> map f l = repeat v (length l).
Proof.
  intros H. induction l as [|h t IH]; simpl; [reflexivity|].
  rewrite (H h) by (left; reflexivity).
  rewrite IH by (intros i Hi; apply H; right; exact Hi). reflexivity.
Qed.

Lemma rolling_std_short (x : list R) (window : Z) :
  (Z.of_nat (length x) < window)%Z ->
  Series.rolling_std x window = Ok (repeat NaN (length x)).
Proof.
  intros H. rewrite rolling_std_ok by lia. f_equal.
  rewrite (map_all_in _ NaN), length_seq; [reflexivity|].
  intros i Hi. apply in_seq in Hi.
  destruct (Z.lt_ge_cases window 2) as [Hs|Hs].
  - apply rolling_entry_degenerate. lia.
  - apply rolling_entry_missing; [exact Hs | lia | zlia].
Qed.

Lemma all_missing_repeat (n : nat) : all_missing (repeat NaN n).
Proof. intros v Hv. apply repeat_spec in Hv. exact Hv. Qed.

Lemma activity_report_none (a : Analysis) :
  all_missing (rolling_std a) -> App.activity_report a = Ok None.
Proof.
  intros H. unfold App.activity_report, App.high_activity_periods.
  rewrite quantile_all_missing by exact H. cbn [bind].
  rewrite gt_nan, any_none. reflexivity.
Qed.

Lemma simple_count_none (a : Analysis) :
  all_missing (rolling_std a) -> Simple.high_activity_periods a = Ok 0%nat.
Proof.
  intros H. unfold Simple.high_activity_periods.
  rewrite quantile_all_missing by exact H.
  rewrite gt_nan, count_true_none. reflexivity.
Qed.

(** X11: a recording with fewer samples than the ten-second window has no
    rolling value at all; the console script then counts 0 high-activity
    samples and the dashboard warns that none was detected. *)
Theorem short_recording_no_activity (welch : welch_t) (df : DataFrame)
  (a : Analysis) (w : Z) :
  App.analyze_gluten_development welch df = Ok a ->
  App.window_size (sampling_rate a) = Ok w ->
  (Z.of_nat (length df) < w)%Z ->
  rolling_std a = repeat NaN (length df)
  /\ Simple.high_activity_periods a = Ok 0%nat
  /\ App.activity_report a = Ok None.
Proof.
  intros Ha Hw Hlt. apply analyze_ok in Ha.
  destruct Ha as (rate & fs & ps & w' & roll & k & dom
                  & _ & _ & Hw' & Hroll & _ & _ & ->).
  cbn [sampling_rate] in Hw. rewrite Hw in Hw'. injection Hw' as <-.
  rewrite rolling_std_short in Hroll
    by (unfold column; rewrite length_map; exact Hlt).
  injection Hroll as <-. unfold column. rewrite length_map.
  assert (Hm : all_missing (rolling_std
            {| total_time := Series.max (map time df);
               mean_gforce := Series.mean (map gFTotal df);
               std_gforce := Series.std (map gFTotal df);
               num_peaks := length (App.peaks df);
               sampling_rate := rate;
               dominant_freq := dom;
               rolling_std := repeat NaN (length df) |}))
    by apply all_missing_repeat.
  split; [reflexivity|].
  split; [apply simple_count_none | apply activity_report_none]; exact Hm.
Qed.

Lemma short_recording_no_activity_witness :
  rolling_std bench_result = repeat NaN (length bench)
  /\ Simple.high_activity_periods bench_result = Ok 0%nat
  /\ App.activity_report bench_result = Ok None.
Proof.
  apply (short_recording_no_activity bench_welch bench bench_result 100
           bench_run bench_window).
  simpl. lia.
Defined.

(** ** The detected peaks *)

Lemma local_maxima_loop_sorted (x : list R) (i_max : nat) :
  forall fuel i, StronglySorted lt (Signal.local_maxima_loop fuel x i i_max).
Proof.
  induction fuel as [|fuel IH]; intros i; cbn [Signal.local_maxima_loop];
    [constructor|].
  destruct (i <? i_max)%nat; [|constructor].
  pose proof (look_ahead_ge x i i_max (i_max - i) (S i)) as Hge.
  destruct (Rltb x.[i - 1] x.[i]); [|apply IH].
  destruct (Rltb _ _); [|apply IH].
  constructor; [apply IH|].
  apply Forall_forall. intros q Hq. apply local_maxima_loop_ge in Hq.
  pose proof (midpoint_bounds i
                (Signal.look_ahead (i_max - i) x i (S i) i_max - 1) ltac:(lia)).
  lia.
Qed.

Lemma sorted_filter (f : nat -> bool) (l : list nat) :
  StronglySorted lt l -> StronglySorted lt (filter f l).
Proof.
  induction 1 as [|a l Hs IH Hall]; simpl; [constructor|].
  destruct (f a); [|exact IH].
  constructor; [exact IH|].
  apply Forall_forall. intros q Hq. apply filter_In in Hq.
  rewrite Forall_forall in Hall. apply Hall. apply Hq.
Qed.

Lemma local_maxima_loop_count (x : list R) (i_max : nat) :
  forall fuel i,
    (2 * length (Signal.local_maxima_loop fuel x i i_max) <= i_max + 1 - i)%nat.
Proof.
  induction fuel as [|fuel IH]; intros i; cbn [Signal.local_maxima_loop];
    [simpl; lia|].
  destruct (Nat.ltb_spec i i_max) as [Hlt|Hge]; [|simpl; lia].
  destruct (look_ahead_spec x i i_max (i_max - i) (S i)) as (Hr & _ & _);
    try lia.
  { intros j Hj. assert (j = i) as -> by lia. reflexivity. }
  destruct (Rltb x.[i - 1] x.[i]);
    [|specialize (IH (S i)); lia].
  destruct (Rltb _ _); [|specialize (IH (S i)); lia].
  cbn [length].
  specialize (IH (S (Signal.look_ahead (i_max - i) x i (S i) i_max))). lia.
Qed.

Lemma filter_length_le (f : nat -> bool) (l : list nat) :
  (length (filter f l) <= length l)%nat.
Proof.
  induction l as [|h t IH]; simpl; [lia|]. destruct (f h); simpl; lia.
Qed.

(** X12: the detected peaks come in strictly ascending order, and there
    are at most [(n - 1) // 2] of them among [n] samples: two peaks are
    never neighbours.  The count returned by the analysis obeys the same
    bound. *)
Theorem peaks_ascending_sparse (df : DataFrame) :
  StronglySorted lt (App.peaks df)
  /\ (2 * length (App.peaks df) <= length df - 1)%nat
  /\ Simple.peaks df = App.peaks df
  /\ (forall (welch : welch_t) (a : Analysis),
        App.analyze_gluten_development welch df = Ok a ->
        (2 * num_peaks a <= length df - 1)%nat).
Proof.
  assert (Hc : (2 * length (App.peaks df) <= length df - 1)%nat).
  { unfold App.peaks, Signal.find_peaks, Signal.local_maxima_1d.
    pose proof (filter_length_le
                  (fun p => fleb (App.height df) (Fin (column gFTotal df).[p]))
                  (Signal.local_maxima_loop (length (column gFTotal df))
                     (column gFTotal df) 1 (length (column gFTotal df) - 1))).
    pose proof (local_maxima_loop_count (column gFTotal df)
                  (length (column gFTotal df) - 1)
                  (length (column gFTotal df)) 1).
    unfold column in *. rewrite length_map in *. lia. }
  split; [|split; [exact Hc | split; [reflexivity|]]].
  - unfold App.peaks, Signal.find_peaks, Signal.local_maxima_1d.
    apply sorted_filter, local_maxima_loop_sorted.
  - intros welch a Ha. apply analyze_ok in Ha.
    destruct Ha as (rate & fs & ps & w & roll & k & dom
                    & _ & _ & _ & _ & _ & _ & ->).
    exact Hc.
Qed.

Lemma peaks_ascending_sparse_witness :
  (2 * num_peaks bench_result <= length bench - 1)%nat.
Proof.
  exact (proj2 (proj2 (proj2 (peaks_ascending_sparse bench)))
           bench_welch bench_result bench_run).
Defined.

Lemma no_plateau_no_peaks (x : list R) (height : float) :
  (forall l r, ~ plateau x l r) -> Signal.find_peaks x height = [].
Proof.
  intros H. destruct (Signal.find_peaks x height) as [|p t] eqn:E;
    [reflexivity|]. exfalso.
  assert (Hp : In p (Signal.find_peaks x height)) by (rewrite E; left; reflexivity).
  apply find_peaks_spec in Hp. destruct Hp as ((l & r & Hp & _) & _).
  exact (H l r Hp).
Qed.

(** X13: a magnitude that never falls, or never rises, has no peak: a
    ramp, a step and a constant series are reported without peaks. *)
Theorem monotone_no_peaks (df : DataFrame) :
  ((forall j, (j + 1 < length df)%nat ->
      (column gFTotal df).[j] <= (column gFTotal df).[j + 1])
   \/ (forall j, (j + 1 < length df)%nat ->
         (column gFTotal df).[j + 1] <= (column gFTotal df).[j])) ->
  App.peaks df = [] /\ Simple.peaks df = [].
Proof.
  intros H.
  assert (E : App.peaks df = []).
  { apply no_plateau_no_peaks.
    intros l r (Hlr & Hlen & Hrise & Hrun & Hfall).
    unfold column in Hlen. rewrite length_map in Hlen.
    destruct H as [Hup|Hdown].
    - specialize (Hup r Hlen).
      rewrite (Hrun r ltac:(lia)) in Hup. lra.
    - specialize (Hdown (l - 1)%nat).
      replace (l - 1 + 1)%nat with l in Hdown by lia.
      specialize (Hdown ltac:(lia)). lra. }
  split; exact E.
Qed.

Lemma monotone_no_peaks_witness :
  App.peaks (recording [(0, 1); (0.1, 2); (0.2, 2); (0.3, 5)]) = [].
Proof.
  apply (monotone_no_peaks (recording [(0, 1); (0.1, 2); (0.2, 2); (0.3, 5)])).
  left. intros j Hj. simpl in Hj. unfold Signal.at_.
  assert (j = 0 \/ j = 1 \/ j = 2)%nat as [-> | [-> | ->]] by lia;
    simpl; lra.
Defined.

Lemma monotone_no_peaks_helper (df : DataFrame) (c : R) :
  constant c (column gFTotal df) -> App.peaks df = [] /\ Simple.peaks df = [].
Proof.
  intros Hc.
  assert (E : App.peaks df = []).
  { apply no_plateau_no_peaks.
    intros l r (Hlr & Hlen & Hrise & _).
    assert (Hat : forall j, (j < length (column gFTotal df))%nat ->
                    (column gFTotal df).[j] = c).
    { intros j Hj. apply Hc. unfold Signal.at_. apply nth_In. exact Hj. }
    rewrite (Hat (l - 1)%nat), (Hat l) in Hrise by lia. lra. }
  split; exact E.
Qed.

(** X14: every detected peak is at least half a standard deviation above
    the mean magnitude; in particular no sample below the mean is ever
    reported. *)
Theorem peaks_above_mean (df : DataFrame) (p : nat) :
  In p (App.peaks df) ->
  exists sd : R,
    Series.std (column gFTotal df) = Fin sd /\ 0 <= sd
    /\ Series.mean_of (column gFTotal df) + 0.5 * sd <= (column gFTotal df).[p]
    /\ Series.mean_of (column gFTotal df) <= (column gFTotal df).[p].
Proof.
  intros Hp. apply peaks_spec in Hp.
  destruct Hp as ((l & r & (Hlr & Hlen & _) & _) & Hh).
  assert (Hn : (2 <= length df)%nat)
    by (unfold column in Hlen; rewrite length_map in Hlen; lia).
  rewrite (height_defined df Hn) in Hh. apply reaches_finite in Hh.
  exists (sqrt (Series.var_of 1 (column gFTotal df))).
  pose proof (sqrt_pos (Series.var_of 1 (column gFTotal df))) as Hs.
  split; [apply std_defined; unfold column; rewrite length_map; exact Hn|].
  repeat split; lra.
Qed.

Lemma peaks_above_mean_witness :
  Series.mean_of (column gFTotal pulse) <= (column gFTotal pulse).[1].
Proof.
  assert (Hin : In 1%nat (App.peaks pulse)).
  { apply peaks_spec. split; [|exact pulse_reaches].
    exists 1%nat, 1%nat. split; [|reflexivity].
    apply strict_peak_plateau; unfold Signal.at_; simpl; try lia; lra. }
  destruct (peaks_above_mean pulse 1 Hin) as (sd & _ & _ & _ & H). exact H.
Defined.

(** ** High-activity samples *)

Lemma any_count (m : list bool) :
  Series.any m = (0 <? Series.count_true m)%nat.
Proof.
  unfold Series.any, Series.count_true.
  induction m as [|b t IH]; [reflexivity|].
  destruct b; simpl; [reflexivity | exact IH].
Qed.

Lemma count_true_cons (b : bool) (m : list bool) :
  Series.count_true (b :: m)
  = ((if b then 1 else 0) + Series.count_true m)%nat.
Proof. unfold Series.count_true. destruct b; reflexivity. Qed.

Lemma count_le_defined (s : list float) (t : float) :
  (Series.count_true (Series.gt s t) <= length (Series.dropna s))%nat.
Proof.
  unfold Series.gt, Series.dropna.
  induction s as [|v s IH]; [unfold Series.count_true; simpl; lia|].
  cbn [map filter]. rewrite count_true_cons.
  destruct v; cbn [isnan negb length]; unfold fgtb in *.
  - destruct (fltb t (Fin r)); lia.
  - destruct (fltb t PInf); lia.
  - destruct (fltb t NInf); lia.
  - replace (fltb t NaN) with false by (destruct t; reflexivity). lia.
Qed.

(** X15: the dashboard and the console script report the same number of
    high-activity samples: the dashboard shows the count exactly when it
    is positive and its warning when it is 0; the count never exceeds the
    number of rolling entries that have a value. *)
Theorem activity_report_agrees (a : Analysis) :
  exists k : nat,
    Simple.high_activity_periods a = Ok k
    /\ App.activity_report a = Ok (if (0 <? k)%nat then Some k else None)
    /\ (k <= length (Series.dropna (rolling_std a)))%nat.
Proof.
  eexists. split; [reflexivity|]. split.
  - unfold App.activity_report, App.high_activity_periods. cbn [bind].
    rewrite any_count. reflexivity.
  - apply count_le_defined.
Qed.

(** ** A constant magnitude *)

Lemma dropna_steady (c : R) (s : list float) :
  (forall e, In e s -> e = NaN \/ e = Fin c) ->
  Series.dropna s = repeat (Fin c) (length (Series.dropna s)).
Proof.
  unfold Series.dropna. induction s as [|e s IH]; intros H; [reflexivity|].
  cbn [filter].
  assert (IH' := IH (fun e' He' => H e' (or_intror He'))).
  destruct (H e (or_introl eq_refl)) as [-> | ->]; cbn [isnan negb];
    [exact IH'|].
  cbn [length repeat]. f_equal. exact IH'.
Qed.

Lemma sort_repeat (c : R) (k : nat) :
  Series.sort (repeat (Fin c) k) = repeat (Fin c) k.
Proof.
  unfold Series.sort. induction k as [|k IH]; [reflexivity|].
  cbn [repeat fold_right]. rewrite IH.
  destruct k as [|k]; [reflexivity|].
  cbn [repeat Series.insert fleb]. rewrite Rleb_true by lra. reflexivity.
Qed.

Lemma quantile_steady (c q : R) (s : list float) :
  (forall e, In e s -> e = NaN \/ e = Fin c) ->
  Series.quantile s q = NaN \/ Series.quantile s q = Fin c.
Proof.
  intros H. unfold Series.quantile.
  rewrite (dropna_steady c s H), sort_repeat.
  destruct (length (Series.dropna s)) as [|k]; [left; reflexivity|].
  right. cbn [repeat]. cbv beta iota zeta.
  change (Fin c :: repeat (Fin c) k) with (repeat (Fin c) (S k)).
  rewrite !nth_repeat. simpl. f_equal. ring.
Qed.

Lemma gt_steady (c : R) (s : list float) (t : float) :
  (forall e, In e s -> e = NaN \/ e = Fin c) ->
  t = NaN \/ t = Fin c ->
  Series.gt s t = repeat false (length s).
Proof.
  intros H [-> | ->]; [apply gt_nan|].
  unfold Series.gt. induction s as [|e s IH]; [reflexivity|].
  cbn [map length repeat].
  rewrite IH by (intros e' He'; apply H; right; exact He'). f_equal.
  destruct (H e (or_introl eq_refl)) as [-> | ->]; [reflexivity|].
  unfold fgtb. simpl. apply Rltb_false. lra.
Qed.

(** X16: a recording whose magnitude stays at one value [c], once
    analysed, shows no development at all: the standard deviation is 0,
    there is no peak, every rolling entry is missing or 0, no sample counts
    as high activity, and for a positive [c] the variation is assessed
    low. *)
Theorem constant_recording (welch : welch_t) (df : DataFrame)
  (a : Analysis) (c : R) :
  App.analyze_gluten_development welch df = Ok a ->
  constant c (column gFTotal df) ->
  mean_gforce a = Fin c
  /\ std_gforce a = Fin 0
  /\ num_peaks a = 0%nat
  /\ (forall e, In e (rolling_std a) -> e = NaN \/ e = Fin 0)
  /\ Simple.high_activity_periods a = Ok 0%nat
  /\ App.activity_report a = Ok None
  /\ (0 < c ->
      App.assessment (App.std_coefficient a) = LowVariation
      /\ Simple.assessment (Simple.std_coefficient a) = LowVariation).
Proof.
  intros Ha Hc. pose proof (analyze_needs_two_samples welch df a Ha) as Hn.
  assert (Hn' : (2 <= length (column gFTotal df))%nat)
    by (unfold column; rewrite length_map; exact Hn).
  apply analyze_ok in Ha.
  destruct Ha as (rate & fs & ps & w & roll & k & dom
                  & _ & _ & _ & Hroll & _ & _ & ->).
  cbn [mean_gforce std_gforce num_peaks rolling_std].
  assert (Hmean : Series.mean (column gFTotal df) = Fin c).
  { unfold Series.mean. destruct (column gFTotal df) as [|v l] eqn:E;
      [simpl in Hn'; lia|].
    f_equal. apply mean_constant; [exact Hc | discriminate]. }
  assert (Hstd : Series.std (column gFTotal df) = Fin 0).
  { rewrite std_defined by exact Hn'.
    rewrite (var_constant c) by exact Hc. rewrite sqrt_0. reflexivity. }
  assert (Hentries : forall e, In e roll -> e = NaN \/ e = Fin 0).
  { intros e He. unfold Series.rolling_std in Hroll.
    destruct (w <? 0)%Z; [discriminate|]. injection Hroll as <-.
    apply in_map_iff in He. destruct He as (i & <- & _).
    change (rolling_entry (column gFTotal df) w i = NaN
            \/ rolling_entry (column gFTotal df) w i = Fin 0).
    pose proof (rolling_entry_constant c (column gFTotal df) w i Hc) as Hz.
    destruct (rolling_entry (column gFTotal df) w i);
      try (right; apply Hz; discriminate). left. reflexivity. }
  assert (Hgt : Series.gt roll (Series.quantile roll 0.75)
                = repeat false (length roll)).
  { apply (gt_steady 0); [exact Hentries|].
    apply quantile_steady. exact Hentries. }
  split; [exact Hmean|]. split; [exact Hstd|]. split.
  { rewrite (proj1 (monotone_no_peaks_helper df c Hc)). reflexivity. }
  split; [exact Hentries|]. split.
  { unfold Simple.high_activity_periods. cbn [rolling_std].
    rewrite Hgt, count_true_none. reflexivity. }
  split.
  { unfold App.activity_report, App.high_activity_periods. cbn [rolling_std bind].
    rewrite Hgt, any_none. reflexivity. }
  intros Hpos.
  unfold App.std_coefficient, Simple.std_coefficient.
  cbn [mean_gforce std_gforce]. rewrite Hmean, Hstd. simpl. rcompare.
  split; [apply assessment_low | change (Simple.assessment (Fin (0 / c)))
            with (App.assessment (Fin (0 / c))); apply assessment_low];
    unfold Rdiv; rewrite Rmult_0_l; lra.
Qed.

Lemma steady_run :
  exists a, App.analyze_gluten_development bench_welch steady = Ok a.
Proof.
  eexists.
  apply (analyze_run bench_welch steady (Fin (1 / (0.1 - 0)))
           [Fin 0; Fin 0.5; Fin 1] [Fin 1; Fin 3; Fin 3] 100%Z
           [NaN; NaN; NaN] 1%nat).
  - unfold App.infer_rate, steady. simpl. rcompare. reflexivity.
  - reflexivity.
  - exact bench_window.
  - reflexivity.
  - exact bench_argmax.
  - reflexivity.
Qed.

Lemma steady_constant : constant 1 (column gFTotal steady).
Proof. intros v [H|[H|[H|[]]]]; symmetry; exact H. Qed.

Lemma constant_recording_witness :
  exists a,
    App.analyze_gluten_development bench_welch steady = Ok a
    /\ std_gforce a = Fin 0 /\ num_peaks a = 0%nat
    /\ App.assessment (App.std_coefficient a) = LowVariation.
Proof.
  destruct steady_run as [a Ha]. exists a. split; [exact Ha|].
  destruct (constant_recording bench_welch steady a 1 Ha steady_constant)
    as (_ & Hs & Hp & _ & _ & _ & Hlow).
  split; [exact Hs|]. split; [exact Hp|]. apply Hlow. lra.
Defined.

(** *** At most a quarter of the samples are above the 75th percentile *)

Lemma fle_fin (a b : R) : fle (Fin a) (Fin b) <-> a <= b.
Proof. unfold fle. simpl. apply Rleb_spec. Qed.

Lemma insert_perm (v : float) (l : list float) :
  Permutation (Series.insert v l) (v :: l).
Proof.
  induction l as [|h t IH]; simpl; [apply Permutation_refl|].
  destruct (fleb v h); [apply Permutation_refl|].
  apply Permutation_trans with (h :: v :: t);
    [apply perm_skip; exact IH | apply perm_swap].
Qed.

Lemma sort_perm (l : list float) : Permutation (Series.sort l) l.
Proof.
  unfold Series.sort. induction l as [|h t IH]; simpl; [apply perm_nil|].
  apply Permutation_trans with (h :: fold_right Series.insert [] t);
    [apply insert_perm | apply perm_skip; exact IH].
Qed.

Lemma insert_sorted (v : float) (l : list float) :
  is_fin v -> Forall is_fin l ->
  StronglySorted fle l -> StronglySorted fle (Series.insert v l).
Proof.
  intros Hv Hl Hs. induction Hs as [|h t Hs IH Hall]; simpl.
  - constructor; [constructor | constructor].
  - inversion Hl as [|? ? Hh Ht]; subst.
    destruct v as [a| | |]; try contradiction.
    destruct h as [b| | |]; try contradiction.
    simpl. unfold Rleb. destruct (Rle_dec a b) as [Hab|Hab].
    + constructor; [constructor; assumption|].
      constructor; [apply fle_fin; exact Hab|].
      rewrite Forall_forall in *. intros e He.
      specialize (Hall e He). specialize (Ht e He).
      destruct e as [x| | |]; try contradiction.
      apply fle_fin. apply fle_fin in Hall. lra.
    + constructor; [apply IH; exact Ht|].
      rewrite Forall_forall in *. intros e He.
      apply (Permutation_in _ (insert_perm (Fin a) t)) in He.
      destruct He as [<-|He]; [apply fle_fin; lra | apply Hall; exact He].
Qed.

Lemma sort_sorted (l : list float) :
  Forall is_fin l -> StronglySorted fle (Series.sort l).
Proof.
  unfold Series.sort. induction l as [|h t IH]; intros H; simpl; [constructor|].
  inversion H as [|? ? Hh Ht]; subst.
  apply insert_sorted; [exact Hh | | apply IH; exact Ht].
  apply (Permutation_Forall (Permutation_sym (sort_perm t))). exact Ht.
Qed.

Lemma sorted_nth (l : list float) (d : float) :
  StronglySorted fle l ->
  forall i j, (i < j)%nat -> (j < length l)%nat -> fle (nth i l d) (nth j l d).
Proof.
  induction 1 as [|h t Hs IH Hall]; intros i j Hij Hj; [simpl in Hj; lia|].
  destruct j as [|j]; [lia|]. simpl in Hj. destruct i as [|i].
  - simpl. rewrite Forall_forall in Hall. apply Hall. apply nth_In. lia.
  - simpl. apply IH; lia.
Qed.

Lemma above_cons (t e : float) (l : list float) :
  above t (e :: l) = ((if fgtb e t then 1 else 0) + above t l)%nat.
Proof. unfold above, Series.gt. cbn [map]. apply count_true_cons. Qed.

Lemma above_perm (t : float) (l l' : list float) :
  Permutation l l' -> above t l = above t l'.
Proof.
  induction 1 as [|e l l' Hp IH|e e' l|l l' l'' H1 IH1 H2 IH2];
    rewrite ?above_cons; lia.
Qed.

Lemma above_app (t : float) (l1 l2 : list float) :
  above t (l1 ++ l2) = (above t l1 + above t l2)%nat.
Proof.
  induction l1 as [|e l1 IH]; [reflexivity|].
  cbn [app]. rewrite !above_cons, IH. lia.
Qed.

Lemma above_le_length (t : float) (l : list float) :
  (above t l <= length l)%nat.
Proof.
  induction l as [|e l IH]; [unfold above, Series.count_true; simpl; lia|].
  rewrite above_cons. cbn [length]. destruct (fgtb e t); lia.
Qed.

Lemma above_none (t : float) (l : list float) :
  (forall e, In e l -> fgtb e t = false) -> above t l = 0%nat.
Proof.
  induction l as [|e l IH]; intros H; [reflexivity|].
  rewrite above_cons, (H e (or_introl eq_refl)), IH; [reflexivity|].
  intros e' He'. apply H. right. exact He'.
Qed.

Lemma above_dropna (t : float) (s : list float) :
  above t (Series.dropna s) = above t s.
Proof.
  unfold Series.dropna. induction s as [|e s IH]; [reflexivity|].
  cbn [filter]. rewrite above_cons.
  destruct e; cbn [isnan negb]; rewrite ?above_cons, IH; try reflexivity.
  unfold fgtb. replace (fltb t NaN) with false by (destruct t; reflexivity).
  reflexivity.
Qed.

Lemma in_firstn_nth (d : float) (k : nat) (l : list float) (e : float) :
  In e (firstn k l) ->
  exists j, (j < k)%nat /\ (j < length l)%nat /\ nth j l d = e.
Proof.
  revert l. induction k as [|k IH]; intros [|h t] H; simpl in H;
    try contradiction.
  destruct H as [<-|H].
  - exists 0%nat. simpl. repeat split; lia.
  - destruct (IH t H) as (j & Hj & Hl & E). exists (S j). simpl.
    repeat split; try lia. exact E.
Qed.

Lemma is_fin_inv (e : float) : is_fin e -> exists v, e = Fin v.
Proof. destruct e; try contradiction. intros _. eexists. reflexivity. Qed.

Lemma dropna_fin (s : list float) :
  (forall e, In e s -> e = NaN \/ is_fin e) ->
  Forall is_fin (Series.dropna s).
Proof.
  intros H. apply Forall_forall. intros e He.
  unfold Series.dropna in He. apply filter_In in He. destruct He as [Hin Hn].
  destruct (H e Hin) as [-> | Hf]; [discriminate Hn | exact Hf].
Qed.

Lemma floor_index (n : nat) :
  let virtual := 0.75 * INR n in
  let p := Z.to_nat (Zfloor virtual) in
  (p <= n)%nat /\ INR p <= virtual < INR p + 1.
Proof.
  cbv zeta. pose proof (pos_INR n) as Hn.
  pose proof (Zfloor_bound (0.75 * INR n)) as [Hlo Hhi].
  assert (Hz : (0 <= Zfloor (0.75 * INR n))%Z).
  { apply (Zfloor_lub 0). simpl. lra. }
  assert (Hp : INR (Z.to_nat (Zfloor (0.75 * INR n)))
               = IZR (Zfloor (0.75 * INR n))).
  { rewrite INR_IZR_INZ, Z2Nat.id by exact Hz. reflexivity. }
  rewrite Hp. split; [|split; assumption].
  apply INR_le. rewrite Hp. lra.
Qed.

Lemma quarter_arith (m p : nat) :
  0.75 * INR m < INR p + 1 -> (3 * m < 4 * (p + 1))%nat.
Proof.
  intros H. apply INR_lt. rewrite !mult_INR, plus_INR. simpl. lra.
Qed.

Lemma quantile_quarter (s : list float) :
  (forall e, In e s -> e = NaN \/ is_fin e) ->
  (4 * above (Series.quantile s 0.75) s <= length (Series.dropna s) + 2)%nat.
Proof.
  intros H. pose proof (dropna_fin s H) as Hd.
  pose proof (sort_perm (Series.dropna s)) as Hperm.
  pose proof (sort_sorted _ Hd) as Hsorted.
  assert (Hfin : Forall is_fin (Series.sort (Series.dropna s)))
    by (apply (Permutation_Forall (Permutation_sym Hperm)); exact Hd).
  rewrite <- (Permutation_length Hperm).
  rewrite <- above_dropna, <- (above_perm _ _ _ Hperm).
  unfold Series.quantile.
  destruct (Series.sort (Series.dropna s)) as [|v0 rest] eqn:Evs.
  - unfold above. rewrite gt_nan, count_true_none. simpl. lia.
  - cbv zeta. set (V := v0 :: rest) in *.
    assert (Hlen : (length V - 1)%nat = length rest) by (simpl; lia).
    destruct (floor_index (length V - 1)) as (Hp & Hlo & Hhi).
    set (virtual := 0.75 * INR (length V - 1)) in *.
    set (p := Z.to_nat (Zfloor virtual)) in *.
    rewrite Forall_forall in Hfin.
    assert (Hp' : (p < length V)%nat) by (unfold V in *; cbn [length] in *; lia).
    destruct (is_fin_inv (nth p V v0)) as [a Ea];
      [apply Hfin, nth_In; exact Hp'|].
    destruct (is_fin_inv (nth (Nat.min (S p) (length V - 1)) V v0)) as [b Eb];
      [apply Hfin, nth_In; lia|].
    assert (Hab : a <= b).
    { apply fle_fin. rewrite <- Ea, <- Eb.
      destruct (Nat.eq_dec (Nat.min (S p) (length V - 1)) p) as [E|E].
      - rewrite E, Ea. apply fle_fin. lra.
      - apply sorted_nth; [exact Hsorted | lia | lia]. }
    rewrite Ea, Eb. cbn [fsub fopp fadd fmul].
    set (Q := a + (b + - a) * (virtual - INR p)).
    assert (HQ : a <= Q).
    { unfold Q. assert (0 <= (b + - a) * (virtual - INR p));
        [apply Rmult_le_pos; lra | lra]. }
    rewrite <- (firstn_skipn (S p) V) at 1. rewrite above_app.
    rewrite above_none.
    + pose proof (above_le_length (Fin Q) (skipn (S p) V)) as Hle.
      rewrite length_skipn in Hle.
      assert (Hnat : (3 * (length V - 1) < 4 * (p + 1))%nat)
        by (apply quarter_arith; exact Hhi).
      lia.
    + intros e He. apply (in_firstn_nth v0) in He.
      destruct He as (j & Hj & Hjl & <-).
      assert (Hle : fle (nth j V v0) (Fin a)).
      { rewrite <- Ea. destruct (Nat.eq_dec j p) as [->|Hne].
        - rewrite Ea. apply fle_fin. lra.
        - apply sorted_nth; [exact Hsorted | lia | exact Hp']. }
      destruct (is_fin_inv (nth j V v0)) as [x Ex];
        [apply Hfin, nth_In; exact Hjl|].
      rewrite Ex in *. apply fle_fin in Hle.
      unfold fgtb. simpl. apply Rltb_false. lra.
Qed.

Lemma filter_length_le_float (f : float -> bool) (l : list float) :
  (length (filter f l) <= length l)%nat.
Proof.
  induction l as [|h t IH]; simpl; [lia|]. destruct (f h); simpl; lia.
Qed.

Lemma rolling_std_length (x : list R) (window : Z) (r : list float) :
  Series.rolling_std x window = Ok r -> length r = length x.
Proof.
  unfold Series.rolling_std. destruct (window <? 0)%Z; [discriminate|].
  intros E. injection E as <-. rewrite length_map, length_seq. reflexivity.
Qed.

Lemma rolling_std_fin (x : list R) (window : Z) (r : list float) :
  Series.rolling_std x window = Ok r ->
  forall e, In e r -> e = NaN \/ is_fin e.
Proof.
  unfold Series.rolling_std. destruct (window <? 0)%Z; [discriminate|].
  intros E e He. injection E as <-.
  apply in_map_iff in He. destruct He as (i & <- & _).
  change (rolling_entry x window i = NaN \/ is_fin (rolling_entry x window i)).
  rewrite rolling_entry_unfold.
  destruct (window_std_shape window
              (Series.slice x (fst (Series.window_bounds (length x) window i))
                 (snd (Series.window_bounds (length x) window i))))
    as [-> | (v & -> & _)]; [left; reflexivity | right; exact I].
Qed.

(** X17: at most a quarter of the rolling values, rounded up, count as
    high activity: on every recording the scripts can analyse, four times
    the count is at most the number of rolling entries that have a value,
    plus 2. *)
Theorem high_activity_quarter (welch : welch_t) (df : DataFrame)
  (a : Analysis) :
  App.analyze_gluten_development welch df = Ok a ->
  exists k : nat,
    Simple.high_activity_periods a = Ok k
    /\ (4 * k <= length (Series.dropna (rolling_std a)) + 2)%nat
    /\ (length (Series.dropna (rolling_std a)) <= length df)%nat.
Proof.
  intros Ha. apply analyze_ok in Ha.
  destruct Ha as (rate & fs & ps & w & roll & k & dom
                  & _ & _ & _ & Hroll & _ & _ & ->).
  cbn [rolling_std]. eexists. split; [reflexivity|]. split.
  - cbn [rolling_std].
    apply (quantile_quarter roll (rolling_std_fin _ _ _ Hroll)).
  - pose proof (filter_length_le_float (fun v => negb (isnan v)) roll) as Hle.
    rewrite (rolling_std_length _ _ _ Hroll) in Hle.
    unfold column in Hle. rewrite length_map in Hle. exact Hle.
Qed.

(** The pipeline on [active]: the rolling window holds four samples, the
    defined rolling values are 0.5, 1 and 1.5, their 75th percentile is
    1.25 and one value exceeds it. *)
Lemma active_rate : App.infer_rate active = Ok (Fin (1 / (2.2 - 0))).
Proof. unfold App.infer_rate, active. simpl. rcompare. reflexivity. Qed.

Lemma active_window : App.window_size (Fin (1 / (2.2 - 0))) = Ok 4%Z.
Proof.
  unfold App.window_size. simpl. f_equal. apply trunc_eq_floor; lra.
Qed.

Lemma sqrt_var (l : list R) (s : R) :
  0 <= s -> Series.var_of 1 l = s * s -> sqrt (Series.var_of 1 l) = s.
Proof. intros Hs ->. apply sqrt_square. exact Hs. Qed.

Lemma active_rolling :
  Series.rolling_std (column gFTotal active) 4
  = Ok [NaN; NaN; Fin 0.5; Fin 1; Fin 1.5; NaN].
Proof.
  rewrite rolling_std_ok by lia.
  change (map (rolling_entry (column gFTotal active) 4)
              (seq 0 (length (column gFTotal active))))
    with [NaN; NaN; Fin (sqrt (Series.var_of 1 [1; 2; 2; 2]));
          Fin (sqrt (Series.var_of 1 [2; 2; 2; 4]));
          Fin (sqrt (Series.var_of 1 [2; 2; 4; 5])); NaN].
  rewrite (sqrt_var [1; 2; 2; 2] 0.5) by (try lra; series_eval; lra).
  rewrite (sqrt_var [2; 2; 2; 4] 1) by (try lra; series_eval; lra).
  rewrite (sqrt_var [2; 2; 4; 5] 1.5) by (try lra; series_eval; lra).
  reflexivity.
Qed.

Lemma active_run :
  App.analyze_gluten_development bench_welch active = Ok active_result.
Proof.
  apply (analyze_run bench_welch active (Fin (1 / (2.2 - 0)))
           [Fin 0; Fin 0.5; Fin 1] [Fin 1; Fin 3; Fin 3] 4%Z _ 1%nat).
  - exact active_rate.
  - reflexivity.
  - exact active_window.
  - exact active_rolling.
  - exact bench_argmax.
  - reflexivity.
Qed.

Lemma active_sorted :
  Series.sort (Series.dropna (rolling_std active_result))
  = [Fin 0.5; Fin 1; Fin 1.5].
Proof.
  unfold Series.sort, Series.dropna. simpl. rcompare. simpl. rcompare.
  reflexivity.
Qed.

Lemma active_quantile :
  Series.quantile (rolling_std active_result) 0.75 = Fin 1.25.
Proof.
  unfold Series.quantile. rewrite active_sorted.
  cbv zeta. change (length [Fin 0.5; Fin 1; Fin 1.5] - 1)%nat with 2%nat.
  assert (Hf : Zfloor (0.75 * INR 2) = 1%Z).
  { apply Zfloor_eq. simpl. lra. }
  rewrite Hf. simpl. f_equal. lra.
Qed.

Lemma active_count : Simple.high_activity_periods active_result = Ok 1%nat.
Proof.
  unfold Simple.high_activity_periods. rewrite active_quantile.
  unfold Series.count_true, Series.gt, fgtb. simpl. rcompare. reflexivity.
Qed.

Lemma high_activity_quarter_witness :
  App.analyze_gluten_development bench_welch active = Ok active_result
  /\ rolling_std active_result = [NaN; NaN; Fin 0.5; Fin 1; Fin 1.5; NaN]
  /\ Series.quantile (rolling_std active_result) 0.75 = Fin 1.25
  /\ Simple.high_activity_periods active_result = Ok 1%nat
  /\ length (Series.dropna (rolling_std active_result)) = 3%nat
  /\ (4 * 1 <= length (Series.dropna (rolling_std active_result)) + 2)%nat.
Proof.
  destruct (high_activity_quarter bench_welch active active_result active_run)
    as (k & Hk & Hq & _).
  rewrite active_count in Hk. injection Hk as <-.
  split; [exact active_run|]. split; [reflexivity|].
  split; [exact active_quantile|]. split; [exact active_count|].
  split; [reflexivity | exact Hq].
Defined.

(** ** A change of unit *)

Section Rescale.

Variables k c : R.
Hypothesis k_pos : 0 < k.

Let f (v : R) : R := k * v + c.

Lemma column_rescale (df : DataFrame) :
  column gFTotal (rescale k c df) = map f (column gFTotal df).
Proof. unfold column, rescale. rewrite !map_map. reflexivity. Qed.

Lemma time_rescale (df : DataFrame) :
  column time (rescale k c df) = column time df.
Proof. unfold column, rescale. rewrite map_map. reflexivity. Qed.

Lemma at_map (x : list R) (i : nat) :
  (i < length x)%nat -> (map f x).[i] = f x.[i].
Proof.
  intros H. unfold Signal.at_.
  rewrite (nth_indep _ 0 (f 0)) by (rewrite length_map; exact H).
  apply map_nth.
Qed.

Lemma plateau_map (x : list R) (l r : nat) :
  plateau (map f x) l r <-> plateau x l r.
Proof.
  unfold plateau. rewrite length_map. split.
  - intros (Hlr & Hlen & Hrise & Hrun & Hfall).
    rewrite !at_map in Hrise, Hfall by lia.
    repeat split; try lia; try (unfold f in *; nra).
    intros j Hj. specialize (Hrun j Hj). rewrite !at_map in Hrun by lia.
    unfold f in Hrun. nra.
  - intros (Hlr & Hlen & Hrise & Hrun & Hfall).
    rewrite !at_map by lia.
    repeat split; try lia; try (unfold f; nra).
    intros j Hj. rewrite !at_map by lia. rewrite (Hrun j Hj). reflexivity.
Qed.

Lemma sum_affine (x : list R) :
  Series.sum (map f x) = k * Series.sum x + c * INR (length x).
Proof.
  induction x as [|v x IH]; [simpl; lra|].
  change (Series.sum (map f (v :: x))) with (f v + Series.sum (map f x)).
  change (Series.sum (v :: x)) with (v + Series.sum x).
  change (length (v :: x)) with (S (length x)).
  rewrite IH, S_INR. unfold f. lra.
Qed.

Lemma mean_affine (x : list R) :
  x <> [] -> Series.mean_of (map f x) = f (Series.mean_of x).
Proof.
  intros H. unfold Series.mean_of. rewrite sum_affine, length_map.
  unfold f. field. apply not_0_INR. destruct x; [contradiction | discriminate].
Qed.

Lemma sum_sq_affine (m : R) (x : list R) :
  Series.sum (map (fun v => (v - f m) * (v - f m)) (map f x))
  = k * k * Series.sum (map (fun v => (v - m) * (v - m)) x).
Proof.
  induction x as [|v x IH]; [simpl; lra|].
  cbn [map]. 
  change (Series.sum (?a :: ?l)) with (a + Series.sum l).
  rewrite IH. 
  change (Series.sum (((v - m) * (v - m)) :: ?l)) with ((v - m) * (v - m) + Series.sum l).
  unfold f. ring.
Qed.

Lemma var_affine (x : list R) :
  Series.var_of 1 (map f x) = k * k * Series.var_of 1 x.
Proof.
  unfold Series.var_of, Series.ssqdm. rewrite length_map.
  destruct x as [|v x]; [simpl; lra|].
  rewrite mean_affine by discriminate. rewrite sum_sq_affine.
  unfold Rdiv. ring.
Qed.

Lemma std_affine (x : list R) (sd : R) :
  Series.std x = Fin sd -> Series.std (map f x) = Fin (k * sd).
Proof.
  unfold Series.std. rewrite length_map.
  destruct (1 <? length x)%nat eqn:E; [|discriminate].
  intros H. injection H as <-. f_equal. rewrite var_affine.
  rewrite sqrt_mult_alt by nra. rewrite sqrt_square by lra. reflexivity.
Qed.

Lemma std_affine_missing (x : list R) :
  Series.std x = NaN -> Series.std (map f x) = NaN.
Proof.
  unfold Series.std. rewrite length_map.
  destruct (1 <? length x)%nat; [discriminate | reflexivity].
Qed.

Lemma reaches_rescale (df : DataFrame) (p : nat) :
  (p < length df)%nat ->
  reaches (App.height (rescale k c df)) (column gFTotal (rescale k c df)).[p]
  <-> reaches (App.height df) (column gFTotal df).[p].
Proof.
  intros Hp. unfold App.height. rewrite column_rescale.
  rewrite at_map by (unfold column; rewrite length_map; exact Hp).
  unfold Series.std at 2. 
  destruct (1 <? length (column gFTotal df))%nat eqn:E.
  - rewrite (std_affine _ (sqrt (Series.var_of 1 (column gFTotal df))))
      by (unfold Series.std; rewrite E; reflexivity).
    unfold Series.mean.
    destruct (column gFTotal df) as [|v x] eqn:Ex; [discriminate E|].
    cbn [map]. change (f v :: map f x) with (map f (v :: x)).
    rewrite mean_affine by discriminate.
    cbn [fadd fmul]. rewrite !reaches_finite. unfold f. split; intros H; nra.
  - rewrite std_affine_missing by (unfold Series.std; rewrite E; reflexivity).
    unfold reaches. 
    destruct (Series.mean (map f (column gFTotal df)));
      destruct (Series.mean (column gFTotal df)); simpl; split; intros H;
        discriminate H.
Qed.

End Rescale.

Lemma sorted_ext (l1 l2 : list nat) :
  StronglySorted lt l1 -> StronglySorted lt l2 ->
  (forall p, In p l1 <-> In p l2) -> l1 = l2.
Proof.
  intros H1. revert l2. induction H1 as [|a l1 Hs1 IH Hall1];
    intros l2 H2 Hiff.
  - destruct l2 as [|b l2]; [reflexivity|]. exfalso.
    apply (proj2 (Hiff b)). left. reflexivity.
  - destruct H2 as [|b l2 Hs2 Hall2].
    { exfalso. apply (proj1 (Hiff a)). left. reflexivity. }
    rewrite Forall_forall in Hall1, Hall2.
    assert (a = b).
    { destruct (proj1 (Hiff a) (or_introl eq_refl)) as [E|Hin];
        [symmetry; exact E|].
      destruct (proj2 (Hiff b) (or_introl eq_refl)) as [E|Hin'];
        [exact E|].
      specialize (Hall1 b Hin'). specialize (Hall2 a Hin). lia. }
    subst b. f_equal. apply IH; [exact Hs2|].
    intros p. split; intros Hp.
    + destruct (proj1 (Hiff p) (or_intror Hp)) as [E|Hin]; [|exact Hin].
      specialize (Hall1 p Hp). lia.
    + destruct (proj2 (Hiff p) (or_intror Hp)) as [E|Hin]; [|exact Hin].
      specialize (Hall2 p Hp). lia.
Qed.

Lemma peaks_sorted (df : DataFrame) : StronglySorted lt (App.peaks df).
Proof.
  unfold App.peaks, Signal.find_peaks, Signal.local_maxima_1d.
  apply sorted_filter, local_maxima_loop_sorted.
Qed.

Lemma peaks_rescale (k c : R) (df : DataFrame) :
  0 < k -> App.peaks (rescale k c df) = App.peaks df.
Proof.
  intros Hk. apply sorted_ext; try apply peaks_sorted.
  intros p. rewrite !peaks_spec. rewrite column_rescale.
  split.
  - intros ((l & r & Hp & ->) & Hh).
    apply (proj1 (plateau_map k c Hk _ l r)) in Hp.
    assert (Hlt : (Signal.midpoint l r < length df)%nat).
    { pose proof (plateau_interior _ l r Hp) as Hi.
      unfold column in Hi. rewrite length_map in Hi. lia. }
    split; [exists l, r; split; [exact Hp | reflexivity]|].
    rewrite <- column_rescale in Hh.
    apply (reaches_rescale k c Hk df _ Hlt). exact Hh.
  - intros ((l & r & Hp & ->) & Hh).
    assert (Hlt : (Signal.midpoint l r < length df)%nat).
    { pose proof (plateau_interior _ l r Hp) as Hi.
      unfold column in Hi. rewrite length_map in Hi. lia. }
    split; [exists l, r; split; [apply (proj2 (plateau_map k c Hk _ l r));
                                 exact Hp
                                | reflexivity]|].
    rewrite <- column_rescale.
    apply (reaches_rescale k c Hk df _ Hlt). exact Hh.
Qed.

Lemma coefficient_rescale (k : R) (df : DataFrame) :
  0 < k ->
  fdiv (Series.std (column gFTotal (rescale k 0 df)))
       (Series.mean (column gFTotal (rescale k 0 df)))
  = fdiv (Series.std (column gFTotal df)) (Series.mean (column gFTotal df)).
Proof.
  intros Hk. rewrite column_rescale.
  destruct (Series.std (column gFTotal df)) as [sd| | |] eqn:Es;
    try (unfold Series.std in Es;
         destruct (1 <? length (column gFTotal df))%nat; discriminate Es).
  - assert (Hsd : 0 <= sd).
    { unfold Series.std in Es.
      destruct (1 <? length (column gFTotal df))%nat; [|discriminate].
      injection Es as <-. apply sqrt_pos. }
    rewrite (std_affine k 0 Hk _ sd Es). unfold Series.mean.
    destruct (column gFTotal df) as [|v x] eqn:Ex; [reflexivity|].
    cbn [map]. change ((k * v + 0) :: map (fun v0 => k * v0 + 0) x)
      with (map (fun v0 => k * v0 + 0) (v :: x)).
    rewrite mean_affine by discriminate.
    cbn [fdiv]. unfold Reqb, signed_inf, Rltb.
    destruct (Req_dec_T (k * Series.mean_of (v :: x) + 0) 0) as [E|E];
      destruct (Req_dec_T (Series.mean_of (v :: x)) 0) as [E'|E'];
      try (exfalso; nra).
    + destruct (Rlt_dec 0 (k * sd)); destruct (Rlt_dec 0 sd);
        try reflexivity; try (exfalso; nra).
      destruct (Rlt_dec (k * sd) 0); destruct (Rlt_dec sd 0);
        try reflexivity; exfalso; nra.
    + f_equal. field. split; [exact E' | lra].
  - rewrite (std_affine_missing k 0 _ Es). reflexivity.
Qed.

(** X18: the unit of the magnitude does not matter.  Replacing every
    magnitude [g] by [k * g + c] with [k > 0] leaves the detected peaks and
    the sampling rate as they are, and without an offset ([c = 0]) also
    the variation coefficient; so two analyses of the same recording in
    different units report the same number of peaks. *)
Theorem unit_invariance (k c : R) (df : DataFrame) :
  0 < k ->
  App.peaks (rescale k c df) = App.peaks df
  /\ Simple.peaks (rescale k c df) = Simple.peaks df
  /\ App.infer_rate (rescale k c df) = App.infer_rate df
  /\ (forall (welch : welch_t) (a a' : Analysis),
        App.analyze_gluten_development welch df = Ok a ->
        App.analyze_gluten_development welch (rescale k c df) = Ok a' ->
        num_peaks a' = num_peaks a
        /\ sampling_rate a' = sampling_rate a
        /\ total_time a' = total_time a
        /\ (c = 0 -> App.std_coefficient a' = App.std_coefficient a)).
Proof.
  intros Hk.
  assert (Hrate : App.infer_rate (rescale k c df) = App.infer_rate df)
    by (unfold App.infer_rate; rewrite time_rescale; reflexivity).
  split; [apply peaks_rescale; exact Hk|].
  split; [apply peaks_rescale; exact Hk|].
  split; [exact Hrate|].
  intros welch a a' Ha Ha'. apply analyze_ok in Ha, Ha'.
  destruct Ha as (rate & fs & ps & w & roll & i & dom
                  & Hr & _ & _ & _ & _ & _ & ->).
  destruct Ha' as (rate' & fs' & ps' & w' & roll' & i' & dom'
                   & Hr' & _ & _ & _ & _ & _ & ->).
  cbn [num_peaks sampling_rate total_time].
  rewrite Hrate, Hr in Hr'. injection Hr' as <-.
  rewrite peaks_rescale by exact Hk. rewrite time_rescale.
  repeat split. intros ->. unfold App.std_coefficient.
  cbn [std_gforce mean_gforce]. apply coefficient_rescale. exact Hk.
Qed.

Lemma unit_invariance_witness :
  App.peaks (rescale 9.81 0 pulse) = App.peaks pulse.
Proof. apply (proj1 (unit_invariance 9.81 0 pulse ltac:(lra))). Defined.
